(** * Video summarizer extension: stream detection core

    A shallow embedding of the two detectors of the extension:

    - [StreamDetector] (background/streamDetector.ts): the per-tab list of
      network responses classified as video streams;
    - [VideoDetector] (content/videoDetector.ts): the scan of the document
      for [<video>], [<iframe>] and [<source>] elements.

    Strings are sequences of code units below 256 (Stdlib [string]); URLs
    handed out by the browser are serialised in ASCII, and the needles and
    patterns of the source are ASCII throughout.  The Korean default
    titles of the scan are carried as their UTF-8 bytes; no property below
    reads them.  Regular expressions are kept as syntax trees and run by a
    backtracking matcher written in continuation-passing style, the way
    ECMA-262 specifies pattern matching.  Element geometry and durations
    are binary64 numbers (primitive floats), the numbers of the network
    side are integers or [NaN]; the one number that is printed, the
    resolution of a quality label, is rounded to binary64 first. *)

From Stdlib Require Import ZArith NArith String Ascii List Bool Lia Floats.
From Stdlib Require Import DecimalString.
From stdpp Require Import base option list gmap strings.

Local Open Scope string_scope.
Local Open Scope Z_scope.
Local Open Scope list_scope.

(* ===================================================================== *)
(** * JavaScript strings and numbers *)
(* ===================================================================== *)

Module Js.

Definition code (c : ascii) : N := N_of_ascii c.

Definition between (lo hi : N) (c : ascii) : bool :=
  ((lo <=? code c) && (code c <=? hi))%N.

Definition is_digit (c : ascii) : bool := between 48 57 c.
Definition is_upper (c : ascii) : bool := between 65 90 c.
Definition is_lower (c : ascii) : bool := between 97 122 c.

(** [\w] of a pattern without the [u] flag: [[A-Za-z0-9_]]. *)
Definition is_word (c : ascii) : bool :=
  is_upper c || is_lower c || is_digit c || (code c =? 95)%N.

(** Line terminators below 256: LF and CR. *)
Definition is_line_terminator (c : ascii) : bool :=
  (code c =? 10)%N || (code c =? 13)%N.

(** White space skipped by [parseInt]: TAB, LF, VT, FF, CR, SP, NBSP. *)
Definition is_white_space (c : ascii) : bool :=
  between 9 13 c || (code c =? 32)%N || (code c =? 160)%N.

(** [String.prototype.toLowerCase] on one code unit below 256: the ASCII
    capitals and the Latin-1 capitals (all of 0xC0..0xDE but the
    multiplication sign 0xD7) move up by 32. *)
Definition lower_char (c : ascii) : ascii :=
  if is_upper c || (between 192 222 c && negb (code c =? 215)%N)
  then ascii_of_N (code c + 32) else c.

(** Canonicalisation of the [i] flag restricted to what can equal an ASCII
    pattern character: ASCII letters are folded, every other code unit is
    left alone (ECMA-262 never folds a code unit of 128 or more onto one
    below 128). *)
Definition fold_char (c : ascii) : ascii :=
  if is_lower c then ascii_of_N (code c - 32) else c.

Fixpoint toLowerCase (s : string) : string :=
  match s with
  | EmptyString => EmptyString
  | String c s' => String (lower_char c) (toLowerCase s')
  end.

(** [s.startsWith(p)] *)
Definition startsWith (s p : string) : bool := String.prefix p s.

(** [s.includes(p)] *)
Fixpoint includes (s p : string) : bool :=
  match s with
  | EmptyString => String.prefix p EmptyString
  | String _ s' => String.prefix p s || includes s' p
  end.

(** [s.split(sep)] for a one-character separator. *)
Fixpoint split (sep : ascii) (s : string) : list string :=
  match s with
  | EmptyString => [EmptyString]
  | String c s' =>
      if Ascii.eqb c sep then EmptyString :: split sep s'
      else match split sep s' with
           | part :: parts => String c part :: parts
           | [] => [String c EmptyString]
           end
  end.

(** [s.split(sep)[0]] *)
Definition split_first (sep : ascii) (s : string) : string :=
  hd EmptyString (split sep s).

Definition rev_string (s : string) : string :=
  string_of_list_ascii (List.rev (list_ascii_of_string s)).

(** [s.replace(pat, by)] for a string pattern: the first occurrence. *)
Fixpoint replace (pat by_ s : string) : string :=
  if String.prefix pat s
  then (by_ ++ String.substring (String.length pat) (String.length s) s)%string
  else match s with
       | EmptyString => EmptyString
       | String c s' => String c (replace pat by_ s')
       end.

(** Truthiness of a string: non-empty. *)
Definition truthy (s : string) : bool :=
  match s with EmptyString => false | _ => true end.

(** [a || b] on strings. *)
Definition or_else (a b : string) : string := if truthy a then a else b.

(** Numbers as the detector meets them: [NaN] or an integer.  A double
    holds every integer the claims compare (0, 1000, 5000, the itag keys)
    exactly and rounding is monotone, so the comparisons below agree with
    those on doubles.  [parseInt] below returns the integer that the
    digits denote; where a number is printed, its Number value is taken
    with [binary64] first. *)
Inductive number : Type :=
  | NaN
  | Num (n : Z).

Definition number_truthy (x : number) : bool :=
  match x with
  | NaN => false
  | Num n => negb (n =? 0)
  end.

Definition number_lt (x : number) (bound : Z) : bool :=
  match x with
  | NaN => false
  | Num n => n <? bound
  end.

Definition digit_value (c : ascii) : Z := Z.of_N (code c - 48).

(** Longest prefix of decimal digits, with the number of digits read. *)
Fixpoint read_digits (acc : Z) (count : nat) (s : string) : Z * nat :=
  match s with
  | String c s' =>
      if is_digit c then read_digits (10 * acc + digit_value c) (S count) s'
      else (acc, count)
  | EmptyString => (acc, count)
  end.

Fixpoint skip_white_space (s : string) : string :=
  match s with
  | String c s' => if is_white_space c then skip_white_space s' else s
  | EmptyString => EmptyString
  end.

(** [s.trim()] *)
Definition trim (s : string) : string :=
  rev_string (skip_white_space (rev_string (skip_white_space s))).

Definition parse_unsigned (s : string) : number :=
  match read_digits 0 0%nat s with
  | (_, O) => NaN
  | (v, S _) => Num v
  end.

(** [parseInt(s, 10)], and [parseInt(s)] on a string of decimal digits:
    leading white space, an optional sign, then the longest run of decimal
    digits; [NaN] when that run is empty. *)
Definition parseInt (s : string) : number :=
  match skip_white_space s with
  | String "-" s' =>
      match parse_unsigned s' with
      | NaN => NaN
      | Num v => Num (- v)
      end
  | String "+" s' => parse_unsigned s'
  | s' => parse_unsigned s'
  end.

(** Number-to-string of a non-negative integer (decimal below 10^21). *)
Definition toString (n : Z) : string :=
  NilEmpty.string_of_uint (N.to_uint (Z.to_N n)).

(** The Number value of a non-negative integer [n]: the binary64 nearest
    to it, a tie going to the even significand (the rounding of IEEE 754,
    as [SpecFloat] defines it for 53 bits of precision), given as the
    integer it equals; [None] stands for [Infinity].  Every integer below
    2^53 is its own Number value. *)
Definition binary64 (n : Z) : option Z :=
  match SpecFloat.binary_normalize FloatOps.prec FloatOps.emax n 0 false with
  | SpecFloat.S754_zero _ => Some 0
  | SpecFloat.S754_finite _ m e => Some (Z.shiftl (Z.pos m) e)
  | _ => None
  end.

(** Whether the decimal integer [c] has the Number value [v]. *)
Definition reads_as (v c : Z) : bool :=
  match binary64 c with
  | Some w => w =? v
  | None => false
  end.

(** The integer that Number::toString prints for the integer-valued
    double [v]: among the decimals whose Number value is [v], one with the
    fewest significant digits, that is, a multiple of the largest power of
    ten 10^j, [j] at most [limit]; of the two multiples around [v] the
    nearer one, the one with the even last digit when they are equally
    near. *)
Fixpoint shortest (v : Z) (limit : nat) : Z :=
  match limit with
  | O => v
  | S limit' =>
      let p := 10 ^ Z.of_nat limit in
      let lo := v / p * p in
      let hi := lo + p in
      match reads_as v lo, reads_as v hi with
      | true, true =>
          if (v - lo <? hi - v) || ((v - lo =? hi - v) && Z.even (lo / p))
          then lo else hi
      | true, false => lo
      | false, true => hi
      | false, false => shortest v limit'
      end
  end.

Fixpoint drop_zeros (s : string) : string :=
  match s with
  | String "0" s' => drop_zeros s'
  | _ => s
  end.

(** The digits [d] of an integer of more than 21 digits in exponent
    form: [1e+21], [1.2345678901234568e+22]. *)
Definition exponential (d : string) : string :=
  let exponent := toString (Z.of_nat (String.length d) - 1) in
  match rev_string (drop_zeros (rev_string d)) with
  | String c EmptyString => String c ("e+" ++ exponent)
  | String c rest => String c ("." ++ rest ++ "e+" ++ exponent)
  | EmptyString => d
  end.

(** Number::toString of a non-negative integer-valued double [v]: the
    digits of [shortest], written out in full up to 21 digits and in
    exponent form beyond. *)
Definition numberToString (v : Z) : string :=
  let d := toString (shortest v (String.length (toString v))) in
  if (String.length d <=? 21)%nat then d else exponential d.

End Js.

(* ===================================================================== *)
(** * Regular expressions *)
(* ===================================================================== *)

Module Regex.

(** Character classes of the patterns in the source. *)
Inductive cls : Type :=
  | CDot                          (* .        *)
  | CDigit                        (* \d       *)
  | CWord                         (* \w       *)
  | COneOf (chars : list ascii)   (* [abc]    *)
  | CNoneOf (chars : list ascii). (* [^abc]   *)

(** Patterns.  Quantifiers occur in the source on single characters and
    classes only, so [Rep] carries a class. *)
Inductive re : Type :=
  | Eps
  | Chr (c : ascii)
  | Cls (c : cls)
  | Rep (c : cls) (lo : nat) (hi : option nat)   (* greedy c{lo,hi} *)
  | Seq (r1 r2 : re)
  | Alt (r1 r2 : re)
  | Grp (r : re)                                 (* capturing group 1 *)
  | Eos.                                         (* $ without the m flag *)

Definition char_eq (ci : bool) (a b : ascii) : bool :=
  if ci then Ascii.eqb (Js.fold_char a) (Js.fold_char b) else Ascii.eqb a b.

Definition cls_test (ci : bool) (c : cls) (a : ascii) : bool :=
  match c with
  | CDot => negb (Js.is_line_terminator a)
  | CDigit => Js.is_digit a
  | CWord => Js.is_word a
  | COneOf l => existsb (char_eq ci a) l
  | CNoneOf l => negb (existsb (char_eq ci a) l)
  end.

Section Matcher.
Context {R : Type}.

(** The greedy repeat matcher: take one more character while the class
    and the upper bound allow it, fall back to the continuation once the
    lower bound is met. *)
Fixpoint rep (t : ascii -> bool) (lo : nat) (hi : option nat)
    (s : string) (k : string -> option R) : option R :=
  match s with
  | String a s' =>
      if t a && match hi with Some O => false | _ => true end
      then match rep t (Nat.pred lo) (Nat.pred <$> hi) s' k with
           | Some r => Some r
           | None => match lo with O => k s | S _ => None end
           end
      else match lo with O => k s | S _ => None end
  | EmptyString => match lo with O => k s | S _ => None end
  end.

(** [run ci r s cap k]: match [r] at the head of [s], then continue with
    [k] on the rest of the input and the capture of group 1. *)
Fixpoint run (ci : bool) (r : re) (s : string) (cap : option string)
    (k : string -> option string -> option R) : option R :=
  match r with
  | Eps => k s cap
  | Chr c =>
      match s with
      | String a s' => if char_eq ci a c then k s' cap else None
      | EmptyString => None
      end
  | Cls c =>
      match s with
      | String a s' => if cls_test ci c a then k s' cap else None
      | EmptyString => None
      end
  | Rep c lo hi => rep (cls_test ci c) lo hi s (fun s' => k s' cap)
  | Seq r1 r2 => run ci r1 s cap (fun s' cap' => run ci r2 s' cap' k)
  | Alt r1 r2 =>
      match run ci r1 s cap k with
      | Some x => Some x
      | None => run ci r2 s cap k
      end
  | Grp r1 =>
      run ci r1 s cap (fun s' _ =>
        k s' (Some (String.substring 0 (String.length s - String.length s') s)))
  | Eos =>
      match s with
      | EmptyString => k s cap
      | String _ _ => None
      end
  end.

End Matcher.

(** A match anchored at the head of [s] (what a pattern opening with [^]
    asks for): the capture of group 1. *)
Definition match_here (ci : bool) (r : re) (s : string) : option (option string) :=
  run ci r s None (fun _ cap => Some cap).

(** [s.match(r)]: the leftmost position at which [r] matches. *)
Fixpoint exec (ci : bool) (r : re) (s : string) : option (option string) :=
  match match_here ci r s with
  | Some cap => Some cap
  | None =>
      match s with
      | String _ s' => exec ci r s'
      | EmptyString => None
      end
  end.

(** [r.test(s)] for a pattern without the [g] or [y] flag. *)
Definition test (ci : bool) (r : re) (s : string) : bool :=
  match exec ci r s with Some _ => true | None => false end.

(** [s.match(r)[1]] when there is a match. *)
Definition group1 (ci : bool) (r : re) (s : string) : option string :=
  match exec ci r s with
  | Some (Some g) => Some g
  | _ => None
  end.

(** Pattern builders. *)
Fixpoint lit (s : string) : re :=
  match s with
  | EmptyString => Eps
  | String c EmptyString => Chr c
  | String c s' => Seq (Chr c) (lit s')
  end.

Fixpoint cat (rs : list re) : re :=
  match rs with
  | [] => Eps
  | [r] => r
  | r :: rs' => Seq r (cat rs')
  end.

Fixpoint alt (rs : list re) : re :=
  match rs with
  | [] => Eps
  | [r] => r
  | r :: rs' => Alt r (alt rs')
  end.

Definition opt (r : re) : re := Alt r Eps.       (* (?:r)? *)
Definition any_star : re := Rep CDot 0%nat None.  (* .* *)

End Regex.

(* ===================================================================== *)
(** * Shared types (types/index.ts) *)
(* ===================================================================== *)

Module Types.

Inductive VideoPlatform : Type := youtube | vimeo | html5 | stream | unknown_platform.

Inductive StreamType : Type := mp4 | webm | hls | dash | flv | unknown.

#[global] Instance StreamType_eq_dec : EqDecision StreamType.
Proof. solve_decision. Defined.

Definition StreamType_eqb (a b : StreamType) : bool := bool_decide (a = b).

Record DetectedStream : Type := {
  url : string;
  type : StreamType;
  size : option Js.number;
  quality : option string;
  contentType : option string;
  timestamp : Z
}.

(** [VideoInfo] has a [url] of its own, hence a name space of its own. *)
Module Video.
Record VideoInfo : Type := {
  platform : VideoPlatform;
  videoId : option string;
  title : option string;
  duration : option float;
  url : string;
  thumbnailUrl : option string;
  streams : option (list DetectedStream);
  sourceUrl : option string
}.
End Video.

(** [s || undefined] *)
Definition or_undefined (s : string) : option string :=
  if Js.truthy s then Some s else None.

End Types.

(* ===================================================================== *)
(** * background/streamDetector.ts *)
(* ===================================================================== *)

Module StreamDetector.
Import Regex Types.

Record Header : Type := { name : string; value : option string }.

Record WebResponseDetails : Type := {
  d_url : string;
  d_tabId : Z;
  d_type : string;
  d_statusCode : option Z;
  d_responseHeaders : option (list Header)
}.

Definition VIDEO_MIME_TYPES : list string := [
  "video/mp4";
  "video/webm";
  "video/ogg";
  "video/x-flv";
  "video/quicktime";
  "video/x-msvideo";
  "video/x-matroska";
  "video/3gpp";
  "video/mpeg";
  "video/mp2t";
  "application/x-mpegURL";
  "application/vnd.apple.mpegurl";
  "application/dash+xml";
  "application/octet-stream"
].

(** [(?:\?|$|#)] *)
Definition ext_end : re := alt [Chr "?"; Eos; Chr "#"].

(** [/\.EXT(?:\?|$|#)/i] *)
Definition ext (e : string) : re := cat [lit e; ext_end].

Definition VIDEO_URL_PATTERNS : list re := [
  ext ".mp4";
  ext ".webm";
  ext ".m3u8";
  ext ".mpd";
  ext ".flv";
  ext ".ts";
  ext ".m4s";
  ext ".m4v";
  ext ".mov";
  ext ".avi";
  ext ".mkv";
  ext ".3gp";
  cat [lit "/manifest"; opt (Alt (lit ".m3u8") (lit ".mpd"))];
  lit "/playlist.m3u8";
  lit "/master.m3u8";
  lit "/index.m3u8";
  lit "videoplayback";
  lit "googlevideo.com";
  cat [lit "ytimg.com"; any_star; lit ".webm"];
  cat [lit ".akamaihd.net"; any_star; lit "video"];
  cat [lit "cloudfront"; any_star; lit "video"];
  cat [lit ".fbcdn.net"; any_star; lit "video"];
  cat [lit "twimg.com"; any_star; lit "video"];
  cat [lit ".tiktokcdn.com"; any_star; lit "video"];
  cat [lit ".instagram.com"; any_star; lit "video"];
  lit "vimeocdn.com";
  lit "player.vimeo.com";
  cat [lit "dailymotion.com"; any_star; lit "video"];
  lit ".brightcove";
  lit ".jwplatform";
  lit ".jwpcdn";
  lit "bitmovin";
  lit ".hls.";
  lit ".dash.";
  lit "streaming";
  cat [lit "media"; any_star; lit ".mp4"];
  cat [lit "video"; any_star; lit ".mp4"];
  cat [lit "cdn"; any_star; lit "video"]
].

(** [(?:\?|$)] *)
Definition asset_end : re := alt [Chr "?"; Eos].

(** [/\.EXT(?:\?|$)/i] *)
Definition asset (e : string) : re := cat [lit e; asset_end].

Definition EXCLUDE_PATTERNS : list re := [
  lit "googleads";
  lit "doubleclick";
  lit "googlesyndication";
  lit "googleadservices";
  lit "analytics";
  lit "tracking";
  lit "pixel";
  lit "beacon";
  lit "telemetry";
  asset ".gif";
  asset ".png";
  asset ".jpg";
  asset ".jpeg";
  asset ".svg";
  asset ".ico";
  lit ".woff";
  lit ".ttf";
  asset ".css";
  asset ".js";
  lit "favicon";
  lit "thumbnail";
  lit "preview";
  lit "poster"
].

(** [PATTERNS.some(pattern => pattern.test(url))]; every pattern of the
    detector carries the [i] flag. *)
Definition some_test (patterns : list re) (u : string) : bool :=
  existsb (fun pattern => test true pattern u) patterns.

(** [responseHeaders?.find(h => h.name.toLowerCase() === key)?.value] *)
Definition header_value (hs : option (list Header)) (key : string) : option string :=
  match hs with
  | Some headers =>
      match List.find (fun h => String.eqb (Js.toLowerCase (name h)) key) headers with
      | Some h => value h
      | None => None
      end
  | None => None
  end.

(** [looksLikeVideo] *)
Definition looksLikeVideo (u ct : string) : bool :=
  if Js.includes ct "octet-stream"
  then test true (alt [lit "video"; lit "media"; lit "stream"; lit "play"; lit "watch"]) u
  else
    let videoKeywords := ["video"; "media"; "stream"; "play"; "watch"; "clip"; "movie"] in
    let matches := List.filter (fun kw => Js.includes (Js.toLowerCase u) kw) videoKeywords in
    (1 <=? length matches)%nat.

(** [detectStreamType] *)
Definition detectStreamType (u ct : string) : StreamType :=
  let urlLower := Js.toLowerCase u in
  let ctLower := Js.toLowerCase ct in
  if Js.includes urlLower ".m3u8" || Js.includes ctLower "mpegurl"
     || Js.includes ctLower "x-mpegurl" then hls
  else if Js.includes urlLower ".mpd" || Js.includes ctLower "dash" then dash
  else if Js.includes urlLower ".mp4" || Js.includes urlLower ".m4v"
          || Js.includes ctLower "mp4" then mp4
  else if Js.includes urlLower ".webm" || Js.includes ctLower "webm" then webm
  else if Js.includes urlLower ".flv" || Js.includes ctLower "flv" then flv
  else if Js.includes urlLower ".ts" || Js.includes urlLower ".m4s"
          || Js.includes ctLower "mp2t" then hls
  else unknown.

(** The patterns of [detectQuality], in the order of the source. *)
Definition d34 : re := Rep CDigit 3 (Some 4%nat).                 (* \d{3,4} *)

Definition q_progressive : re := cat [Grp d34; Chr "p"].        (* /(\d{3,4})p/i *)
Definition q_width : re := cat [Grp d34; Chr "x"; d34].         (* /(\d{3,4})x\d{3,4}/i *)
Definition q_height : re := cat [d34; Chr "x"; Grp d34].        (* /\d{3,4}x(\d{3,4})/i *)
Definition q_quality : re :=                                    (* /quality[=_-]?(\w+)/i *)
  cat [lit "quality"; Rep (COneOf ["="; "_"; "-"]%char) 0 (Some 1%nat);
       Grp (Rep CWord 1 None)].
Definition q_itag : re :=                                       (* /itag[=_](\d+)/i *)
  cat [lit "itag"; Cls (COneOf ["="; "_"]%char); Grp (Rep CDigit 1 None)].
Definition q_res : re :=                                        (* /res[=_](\d+)/i *)
  cat [lit "res"; Cls (COneOf ["="; "_"]%char); Grp (Rep CDigit 1 None)].
Definition q_token : re :=
  (* /[_-](hd|sd|hq|lq|4k|2k|1080|720|480|360|240|144)[_-]/i *)
  cat [Cls (COneOf ["_"; "-"]%char);
       Grp (alt [lit "hd"; lit "sd"; lit "hq"; lit "lq"; lit "4k"; lit "2k";
                 lit "1080"; lit "720"; lit "480"; lit "360"; lit "240"; lit "144"]);
       Cls (COneOf ["_"; "-"]%char)].

Definition quality_patterns : list re :=
  [q_progressive; q_width; q_height; q_quality; q_itag; q_res; q_token].

(** The YouTube itag table. *)
Definition itagMap (num : Z) : option string :=
  snd <$> List.find (fun kv => fst kv =? num) [
    (18, "360p"); (22, "720p"); (37, "1080p"); (38, "3072p");
    (82, "360p 3D"); (83, "480p 3D"); (84, "720p 3D"); (85, "1080p 3D");
    (133, "240p"); (134, "360p"); (135, "480p"); (136, "720p"); (137, "1080p");
    (138, "2160p"); (160, "144p"); (242, "240p"); (243, "360p"); (244, "480p");
    (247, "720p"); (248, "1080p"); (271, "1440p"); (313, "2160p")
  ].

(** [/^\d+$/.test(val)] *)
Definition all_digits (val : string) : bool :=
  match match_here false (cat [Rep CDigit 1 None; Eos]) val with
  | Some _ => true
  | None => false
  end.

(** What [detectQuality] returns once a pattern has matched with capture
    [val].  [parseInt] reads the digits of [val] and returns their Number
    value [num], a binary64; the template [`${num}p`] prints that double,
    and [Infinity], which is not below 1000, prints as its name. *)
Definition quality_of_capture (val : string) : string :=
  if all_digits val then
    match Js.parseInt val with
    | Js.Num n =>
        match Js.binary64 n with
        | Some num =>
            if 1000 <=? num then (Js.numberToString num ++ "p")%string
            else match itagMap num with
                 | Some label => label
                 | None => val
                 end
        | None => ("Infinity" ++ "p")%string
        end
    | Js.NaN => val
    end
  else val.

(** The loop of [detectQuality] over a list of patterns. *)
Fixpoint detectQuality_from (patterns : list re) (u : string) : option string :=
  match patterns with
  | [] => None
  | pattern :: rest =>
      match exec true pattern u with
      | Some m => quality_of_capture <$> m
      | None => detectQuality_from rest u
      end
  end.

Definition detectQuality (u : string) : option string :=
  detectQuality_from quality_patterns u.

(** The detector: the per-tab lists and the [STREAM_DETECTED] messages
    sent so far. *)
Record Detector : Type := {
  streams : gmap Z (list DetectedStream);
  sent : list (Z * DetectedStream)
}.

Definition init : Detector := {| streams := ∅; sent := [] |}.

(** [getStreams] *)
Definition getStreams (st : Detector) (tabId : Z) : list DetectedStream :=
  default [] (streams st !! tabId).

(** [existing.some(s => s.url === stream.url)] *)
Definition has_url (existing : list DetectedStream) (stream : DetectedStream) : bool :=
  existsb (fun s => String.eqb (url s) (url stream)) existing.

(** [hasSimilar]: an entry with the same URL up to the first [?] and the
    same type. *)
Definition hasSimilar (existing : list DetectedStream) (stream : DetectedStream) : bool :=
  let baseUrl := Js.split_first "?" (url stream) in
  existsb (fun s =>
    let existingBase := Js.split_first "?" (url s) in
    String.eqb existingBase baseUrl && StreamType_eqb (type s) (type stream))
    existing.

(** [existing.push(stream); if (existing.length > 30) existing.shift()] *)
Definition push_bounded (existing : list DetectedStream) (stream : DetectedStream)
    : list DetectedStream :=
  let pushed := existing ++ [stream] in
  if (30 <? length pushed)%nat then tail pushed else pushed.

(** [addStream]; the array of the tab is updated in place and stored
    back, every early return leaves it untouched. *)
Definition addStream (st : Detector) (tabId : Z) (stream : DetectedStream) : Detector :=
  let existing := default [] (streams st !! tabId) in
  if has_url existing stream then st
  else if hasSimilar existing stream
          && negb (StreamType_eqb (type stream) hls)
          && negb (StreamType_eqb (type stream) dash)
  then st
  else
    {| streams := <[tabId := push_bounded existing stream]> (streams st);
       sent := sent st ++ [(tabId, stream)] |}.

(** [statusCode && (statusCode < 200 || statusCode >= 400)] *)
Definition failed (statusCode : option Z) : bool :=
  match statusCode with
  | Some c => negb (c =? 0) && ((c <? 200) || (400 <=? c))
  | None => false
  end.

(** The lower-cased [content-type] header, [''] when there is none. *)
Definition contentType_of (details : WebResponseDetails) : string :=
  Js.or_else
    (match header_value (d_responseHeaders details) "content-type" with
     | Some v => Js.toLowerCase v
     | None => ""
     end) "".

(** [contentLength ? parseInt(contentLength, 10) : undefined] *)
Definition size_of (details : WebResponseDetails) : option Js.number :=
  match header_value (d_responseHeaders details) "content-length" with
  | Some contentLength =>
      if Js.truthy contentLength then Some (Js.parseInt contentLength) else None
  | None => None
  end.

Definition isVideoMime (ct : string) : bool :=
  existsb (fun mime => Js.includes ct (Js.toLowerCase mime)) VIDEO_MIME_TYPES.

Definition isVideoUrl (u : string) : bool := some_test VIDEO_URL_PATTERNS u.

Definition isMediaType (ty : string) : bool :=
  String.eqb ty "media" || String.eqb ty "xmlhttprequest" || String.eqb ty "other".

(** The test of the [if] that guards the store. *)
Definition classified (u ty ct : string) : bool :=
  isVideoMime ct || isVideoUrl u || (isMediaType ty && looksLikeVideo u ct).

(** [size && size < 5000 && streamType !== 'hls' && streamType !== 'dash'] *)
Definition too_small (sz : option Js.number) (streamType : StreamType) : bool :=
  match sz with
  | Some n => Js.number_truthy n && Js.number_lt n 5000
  | None => false
  end
  && negb (StreamType_eqb streamType hls)
  && negb (StreamType_eqb streamType dash).

(** The record [handleResponse] builds for a response it keeps. *)
Definition stream_of (details : WebResponseDetails) (now : Z) : DetectedStream :=
  let ct := contentType_of details in
  {| url := d_url details;
     type := detectStreamType (d_url details) ct;
     size := size_of details;
     quality := detectQuality (d_url details);
     contentType := or_undefined ct;
     timestamp := now |}.

(** [handleResponse]; [now] is the reading of [Date.now()]. *)
Definition handleResponse (st : Detector) (details : WebResponseDetails) (now : Z)
    : Detector :=
  if d_tabId details <? 0 then st
  else if failed (d_statusCode details) then st
  else if some_test EXCLUDE_PATTERNS (d_url details) then st
  else
    let ct := contentType_of details in
    if classified (d_url details) (d_type details) ct then
      let streamType := detectStreamType (d_url details) ct in
      if too_small (size_of details) streamType then st
      else addStream st (d_tabId details) (stream_of details now)
    else st.

(** [clearStreams] *)
Definition clearStreams (st : Detector) (tabId : Z) : Detector :=
  {| streams := <[tabId := []]> (streams st); sent := sent st |}.

(** [getAllStreams] *)
Definition getAllStreams (st : Detector) : gmap Z (list DetectedStream) :=
  streams st.

(** What the listeners of [setupListeners] and the public methods react
    to.  Both web-request listeners hand their details to
    [handleResponse]. *)
Inductive Event : Type :=
  | ResponseStarted (details : WebResponseDetails) (now : Z)
  | HeadersReceived (details : WebResponseDetails) (now : Z)
  | TabRemoved (tabId : Z)
  | TabUpdated (tabId : Z) (status : option string) (newUrl : option string)
  | ClearStreams (tabId : Z).

Definition step (st : Detector) (e : Event) : Detector :=
  match e with
  | ResponseStarted details now => handleResponse st details now
  | HeadersReceived details now => handleResponse st details now
  | TabRemoved tabId =>
      {| streams := delete tabId (streams st); sent := sent st |}
  | TabUpdated tabId status newUrl =>
      match status, newUrl with
      | Some status', Some u =>
          if String.eqb status' "loading" && Js.truthy u
          then {| streams := <[tabId := []]> (streams st); sent := sent st |}
          else st
      | _, _ => st
      end
  | ClearStreams tabId => clearStreams st tabId
  end.

Definition run_events (st : Detector) (es : list Event) : Detector :=
  fold_left step es st.

End StreamDetector.

(* ===================================================================== *)
(** * content/videoDetector.ts *)
(* ===================================================================== *)

Module VideoDetector.
Import Regex Types Types.Video.

(** The document as the detector reads it.  Element properties are the
    values the DOM hands back ([src] is the resolved URL, [''] when the
    attribute is missing); the two selector chains that look for a title
    are kept as their results. *)
Record SourceElement : Type := {
  source_getAttribute_src : option string;   (* getAttribute('src') *)
  source_src : string;                       (* .src *)
  source_type : string                       (* .type *)
}.

Record VideoElement : Type := {
  video_src : string;                        (* .src *)
  video_currentSrc : string;                 (* .currentSrc *)
  rect_width : float;                        (* getBoundingClientRect() *)
  rect_height : float;
  video_title : string;                      (* .title *)
  video_aria_label : option string;          (* getAttribute('aria-label') *)
  video_heading : option string;
    (* closest('article, ...')?.querySelector('h1, ...')?.textContent *)
  video_duration : float                     (* .duration *)
}.

Record IframeElement : Type := {
  iframe_src : string;                       (* .src *)
  iframe_data_src : option string;           (* getAttribute('data-src') *)
  iframe_title : string                      (* .title *)
}.

#[warnings="-register-all"]
Inductive Node : Type :=
  | VideoNode (video : VideoElement) (children : list Node)
  | SourceNode (source : SourceElement)
  | IframeNode (iframe : IframeElement)
  | OtherNode (children : list Node).

Record Document : Type := {
  location_href : string;                    (* window.location.href *)
  document_title : string;                   (* document.title *)
  querySelector_text : string -> option string;
    (* document.querySelector(selector)?.textContent *)
  body : list Node
}.

(** [querySelectorAll('video')], each element with its children. *)
Fixpoint videos_of (n : Node) : list (VideoElement * list Node) :=
  match n with
  | VideoNode v children => (v, children) :: flat_map videos_of children
  | OtherNode children => flat_map videos_of children
  | SourceNode _ | IframeNode _ => []
  end.

(** [querySelectorAll('iframe')] *)
Fixpoint iframes_of (n : Node) : list IframeElement :=
  match n with
  | IframeNode f => [f]
  | VideoNode _ children | OtherNode children => flat_map iframes_of children
  | SourceNode _ => []
  end.

(** [querySelectorAll('source')], each element with whether it has a
    [<video>] ancestor ([closest('video')] is not null). *)
Fixpoint sources_of (inVideo : bool) (n : Node) : list (SourceElement * bool) :=
  match n with
  | SourceNode s => [(s, inVideo)]
  | VideoNode _ children => flat_map (sources_of true) children
  | OtherNode children => flat_map (sources_of inVideo) children
  | IframeNode _ => []
  end.

(** The double quote, for the selectors that carry one. *)
Definition quote : string := String "034" EmptyString.

(** [detectStreamTypeFromUrl] *)
Definition detectStreamTypeFromUrl (u : string) : StreamType :=
  if test true (lit ".m3u8") u then hls
  else if test true (lit ".mpd") u then dash
  else if test true (lit ".mp4") u then mp4
  else if test true (lit ".webm") u then webm
  else if test true (lit ".flv") u then flv
  else unknown.

Section Scan.

(** The runtime: the successive readings of [Date.now()] and the
    conversion [Number(string)]. *)
Variable clock : nat -> Z.
Variable Number : string -> float.

(** [extractYouTubeVideoId] *)
Definition extractYouTubeVideoId (u : string) : option string :=
  let id := Grp (Rep (CNoneOf ["&"; "010"; "?"; "#"]%char) 1 None) in
  let patterns := [
    cat [alt [lit "youtube.com/watch?v="; lit "youtu.be/"; lit "youtube.com/embed/"]; id];
    cat [lit "youtube.com/shorts/"; id];
    cat [lit "youtube.com/live/"; id]
  ] in
  (fix loop (ps : list re) : option string :=
     match ps with
     | [] => None
     | pattern :: rest =>
         match exec false pattern u with
         | Some m => m
         | None => loop rest
         end
     end) patterns.

(** [parseDuration] *)
Definition parseDuration (durationStr : string) : float :=
  match List.map Number (Js.split ":" durationStr) with
  | [h; m; s] => (h * 3600 + m * 60 + s)%float
  | [m; s] => (m * 60 + s)%float
  | _ => 0%float
  end.

(** [detectYouTube] *)
Definition detectYouTube (doc : Document) : option VideoInfo :=
  let u := location_href doc in
  if negb (Js.includes u "youtube.com") && negb (Js.includes u "youtu.be") then None
  else
    match extractYouTubeVideoId u with
    | None => None
    | Some id =>
        if negb (Js.truthy id) then None
        else
          let titleSelectors := [
            "h1.ytd-video-primary-info-renderer";
            "h1.ytd-watch-metadata yt-formatted-string";
            "#title h1 yt-formatted-string";
            ("meta[name=" ++ quote ++ "title" ++ quote ++ "]")%string
          ] in
          let found :=
            List.find (fun text => Js.truthy (Js.trim text))
              (omap (querySelector_text doc) titleSelectors) in
          let title0 := Js.replace " - YouTube" "" (document_title doc) in
          Some {|
            platform := youtube;
            videoId := Some id;
            title := Some (match found with
                           | Some text => Js.trim text
                           | None => title0
                           end);
            duration :=
              (fun text => parseDuration (Js.or_else text "")) <$>
                querySelector_text doc ".ytp-time-duration";
            url := u;
            thumbnailUrl :=
              Some ("https://img.youtube.com/vi/" ++ id ++ "/maxresdefault.jpg")%string;
            streams := None;
            sourceUrl := None
          |}
    end.

(** [detectVimeo] *)
Definition detectVimeo (doc : Document) : option VideoInfo :=
  let u := location_href doc in
  if negb (Js.includes u "vimeo.com") then None
  else
    match exec false (cat [lit "vimeo.com/"; Grp (Rep CDigit 1 None)]) u with
    | None => None
    | Some videoIdMatch =>
        let heading :=
          match querySelector_text doc "h1" with
          | Some text => Js.trim text
          | None => ""
          end in
        Some {|
          platform := vimeo;
          videoId := videoIdMatch;
          title := Some (Js.or_else heading (document_title doc));
          duration := None;
          url := u;
          thumbnailUrl :=
            Some ("https://vumbnail.com/" ++ default "undefined" videoIdMatch ++ ".jpg")%string;
          streams := None;
          sourceUrl := None
        |}
    end.

(** [extractVideoTitle] *)
Definition extractVideoTitle (doc : Document) (video : VideoElement) : string :=
  if Js.truthy (video_title video) then video_title video
  else
    match video_aria_label video with
    | Some ariaLabel =>
        if Js.truthy ariaLabel then ariaLabel
        else match video_heading video with
             | Some text => if Js.truthy text then Js.trim text else document_title doc
             | None => document_title doc
             end
    | None =>
        match video_heading video with
        | Some text => if Js.truthy text then Js.trim text else document_title doc
        | None => document_title doc
        end
    end.

Definition is_blob (u : string) : bool := Js.startsWith u "blob:".

(** [extractVideoSources]; [calls] readings of the clock were taken
    before, each record pushed takes one more. *)
Definition extractVideoSources (calls : nat) (video : VideoElement)
    (children : list Node) : list DetectedStream :=
  let main :=
    if Js.truthy (video_src video) && negb (is_blob (video_src video))
    then [{| Types.url := video_src video;
             type := detectStreamTypeFromUrl (video_src video);
             size := None;
             quality := None;
             contentType := None;
             timestamp := clock calls |}]
    else [] in
  fold_left
    (fun sources '(source, _) =>
       if Js.truthy (source_src source) && negb (is_blob (source_src source))
       then sources ++ [{| Types.url := source_src source;
                           type := detectStreamTypeFromUrl (source_src source);
                           size := None;
                           quality := None;
                           contentType := or_undefined (source_type source);
                           timestamp := clock (calls + length sources)%nat |}]
       else sources)
    (flat_map (sources_of true) children) main.

(** The body of the [forEach] of [detectAllHTML5Videos] for the video at
    [index]: the record pushed, if any. *)
Definition html5_info (doc : Document) (calls index : nat)
    (video : VideoElement) (children : list Node) : option VideoInfo :=
  let area := (rect_width video * rect_height video)%float in
  if PrimFloat.ltb area 10000 then None
  else
    let sourceUrl0 := Js.or_else (video_src video) (video_currentSrc video) in
    let sourceUrl1 :=
      if negb (Js.truthy sourceUrl0) then
        match flat_map (sources_of true) children with
        | (sourceEl, _) :: _ => Js.or_else (source_src sourceEl) ""
        | [] => ""
        end
      else sourceUrl0 in
    let isBlobUrl := is_blob sourceUrl1 in
    Some {|
      platform := html5;
      videoId := None;
      title := Some (Js.or_else (extractVideoTitle doc video)
                       ("비디오 " ++ Js.toString (Z.of_nat index + 1))%string);
      duration := if is_finite (video_duration video)
                  then Some (video_duration video) else None;
      url := location_href doc;
      thumbnailUrl := None;
      streams := Some (extractVideoSources calls video children);
      sourceUrl := if isBlobUrl then None else Some sourceUrl1
    |}.

Definition streams_count (info : VideoInfo) : nat :=
  length (default [] (streams info)).

(** [detectAllHTML5Videos], with the number of clock readings taken. *)
Definition detectAllHTML5Videos (doc : Document) (calls : nat) : list VideoInfo * nat :=
  let videoElements := flat_map videos_of (body doc) in
  fold_left
    (fun '(videos, calls') '(index, (video, children)) =>
       match html5_info doc calls' index video children with
       | Some info => (videos ++ [info], (calls' + streams_count info)%nat)
       | None => (videos, calls')
       end)
    (combine (seq 0 (length videoElements)) videoElements)
    ([], calls).

(** [detectIframeVideos] *)
Definition iframe_info (iframe : IframeElement) : option VideoInfo :=
  let src := Js.or_else (Js.or_else (iframe_src iframe)
                           (default "" (iframe_data_src iframe))) "" in
  match exec false (cat [lit "youtube.com/embed/";
                         Grp (Rep (CNoneOf ["?"; "&"]%char) 1 None)]) src with
  | Some ytMatch =>
      Some {|
        platform := youtube;
        videoId := ytMatch;
        title := Some (Js.or_else (iframe_title iframe) "YouTube 비디오");
        duration := None;
        url := src;
        thumbnailUrl :=
          Some ("https://img.youtube.com/vi/" ++ default "undefined" ytMatch
                ++ "/maxresdefault.jpg")%string;
        streams := None;
        sourceUrl := None
      |}
  | None =>
      match exec false (cat [lit "player.vimeo.com/video/";
                             Grp (Rep CDigit 1 None)]) src with
      | Some vimeoMatch =>
          Some {|
            platform := vimeo;
            videoId := vimeoMatch;
            title := Some (Js.or_else (iframe_title iframe) "Vimeo 비디오");
            duration := None;
            url := src;
            thumbnailUrl :=
              Some ("https://vumbnail.com/" ++ default "undefined" vimeoMatch
                    ++ ".jpg")%string;
            streams := None;
            sourceUrl := None
          |}
      | None =>
          if Js.includes src "video" || Js.includes src "player"
             || Js.includes src "embed"
          then Some {|
                 platform := html5;
                 videoId := None;
                 title := Some (Js.or_else (iframe_title iframe) "임베드 비디오");
                 duration := None;
                 url := src;
                 thumbnailUrl := None;
                 streams := None;
                 sourceUrl := None
               |}
          else None
      end
  end.

Definition detectIframeVideos (doc : Document) : list VideoInfo :=
  omap iframe_info (flat_map iframes_of (body doc)).

(** The selector of [detectSourceTags]:
    [source[src*=.mp4], source[src*=.webm], source[src*=.m3u8]]. *)
Definition source_selected (source : SourceElement) : bool :=
  match source_getAttribute_src source with
  | Some src =>
      Js.includes src ".mp4" || Js.includes src ".webm" || Js.includes src ".m3u8"
  | None => false
  end.

(** [detectSourceTags]; [calls] as in [extractVideoSources]. *)
Definition detectSourceTags (doc : Document) (calls : nat) : list VideoInfo :=
  let sources :=
    List.filter (fun '(source, _) => source_selected source)
      (flat_map (sources_of false) (body doc)) in
  fold_left
    (fun videos '(source, inVideo) =>
       if (inVideo : bool) then videos
       else
         match source_getAttribute_src source with
         | Some src =>
             if Js.truthy src then
               videos ++ [{|
                 platform := html5;
                 videoId := None;
                 title := Some (document_title doc);
                 duration := None;
                 url := location_href doc;
                 thumbnailUrl := None;
                 streams := Some [{| Types.url := src;
                                     type := detectStreamTypeFromUrl src;
                                     size := None;
                                     quality := None;
                                     contentType := None;
                                     timestamp := clock (calls + length videos)%nat |}];
                 sourceUrl := Some src
               |}]
             else videos
         | None => videos
         end)
    sources [].

(** [video.videoId || video.sourceUrl || video.url] *)
Definition dedup_key (video : VideoInfo) : string :=
  Js.or_else (Js.or_else (default "" (videoId video)) (default "" (sourceUrl video)))
    (url video).

(** [deduplicateVideos] *)
Definition deduplicateVideos (videos : list VideoInfo) : list VideoInfo :=
  fst (fold_left
         (fun '(kept, seen) video =>
            let key := dedup_key video in
            if bool_decide (key ∈ (seen : gset string)) then (kept, seen)
            else (kept ++ [video], {[key]} ∪ seen))
         videos ([], ∅)).

(** [detectAll] *)
Definition detectAll (doc : Document) : list VideoInfo :=
  let youtubeInfo := detectYouTube doc in
  let vimeoInfo := detectVimeo doc in
  let '(html5Videos, calls) := detectAllHTML5Videos doc 0 in
  let iframeVideos := detectIframeVideos doc in
  let sourceVideos := detectSourceTags doc calls in
  deduplicateVideos
    (option_list youtubeInfo ++ option_list vimeoInfo ++ html5Videos
     ++ iframeVideos ++ sourceVideos).

(** [detect] *)
Definition detect (doc : Document) : option VideoInfo :=
  head (detectAll doc).

(** [addDetectedStream], on the [detectedSources] of the detector. *)
Definition addDetectedStream (detectedSources : list DetectedStream)
    (stream : DetectedStream) : list DetectedStream :=
  if existsb (fun s => String.eqb (Types.url s) (Types.url stream)) detectedSources
  then detectedSources
  else detectedSources ++ [stream].

End Scan.
End VideoDetector.

(* ===================================================================== *)
(** * Properties of the matcher *)
(* ===================================================================== *)

Section RegexFacts.
Import Regex.

Lemma exec_here ci r s cap :
  match_here ci r s = Some cap -> exec ci r s = Some cap.
Proof. intros H. destruct s; simpl; rewrite H; reflexivity. Qed.

(** A match somewhere in a suffix is a match of the whole string. *)
Lemma test_suffix ci r (p s : string) :
  test ci r s = true -> test ci r (p ++ s)%string = true.
Proof.
  unfold test. induction p as [|c p IH]; simpl; [tauto|].
  intros H. destruct (match_here ci r (String c (p ++ s))); [reflexivity|].
  apply IH, H.
Qed.

End RegexFacts.

(* ===================================================================== *)
(** * The stream detector: classification *)
(* ===================================================================== *)

Section Classification.
Import Regex Types StreamDetector.

Lemma some_test_suffix patterns (p s : string) :
  some_test patterns s = true -> some_test patterns (p ++ s)%string = true.
Proof.
  unfold some_test. rewrite !existsb_exists.
  intros (r & Hin & Hr). exists r. split; [exact Hin|]. apply test_suffix, Hr.
Qed.

(** [handleResponse] leaves the detector alone unless the three guards
    pass, the response is classified and it is not too small; then it
    hands the record to [addStream]. *)
Lemma handleResponse_kept st details now :
  (d_tabId details <? 0) = false ->
  failed (d_statusCode details) = false ->
  some_test EXCLUDE_PATTERNS (d_url details) = false ->
  classified (d_url details) (d_type details) (contentType_of details) = true ->
  too_small (size_of details)
    (detectStreamType (d_url details) (contentType_of details)) = false ->
  handleResponse st details now
  = addStream st (d_tabId details) (stream_of details now).
Proof.
  intros Htab Hfail Hex Hcl Hsz. unfold handleResponse.
  rewrite Htab, Hfail, Hex, Hcl, Hsz. reflexivity.
Qed.

Lemma handleResponse_not_classified st details now :
  classified (d_url details) (d_type details) (contentType_of details) = false ->
  handleResponse st details now = st.
Proof.
  intros Hcl. unfold handleResponse. rewrite Hcl.
  repeat match goal with |- context [if ?b then _ else _] => destruct b end;
    reflexivity.
Qed.

Lemma handleResponse_too_small st details now :
  too_small (size_of details)
    (detectStreamType (d_url details) (contentType_of details)) = true ->
  handleResponse st details now = st.
Proof.
  intros Hsz. unfold handleResponse. rewrite Hsz.
  repeat match goal with |- context [if ?b then _ else _] => destruct b end;
    reflexivity.
Qed.

(** A response to [u] with one [content-type] header, as a test would
    build it. *)
Definition response (tabId : Z) (u ty : string) (headers : list Header)
    : WebResponseDetails :=
  {| d_url := u; d_tabId := tabId; d_type := ty; d_statusCode := Some 200;
     d_responseHeaders := Some headers |}.

Definition content_type (v : string) : Header :=
  {| name := "content-type"; value := Some v |}.

Definition content_length (v : string) : Header :=
  {| name := "content-length"; value := Some v |}.

(** C1, as stated, fails: a PNG response whose URL ends in [.mp4] passes
    the URL allow-list and is stored. *)
Lemma C1_png_with_video_url_is_stored :
  ~ (forall st details now,
       contentType_of details = "image/png" ->
       handleResponse st details now = st).
Proof.
  intros H.
  specialize (H init
    (response 1 "http://x.com/a.mp4" "image" [content_type "image/png"]) 0
    eq_refl).
  apply (f_equal (fun st => length (getStreams st 1))) in H.
  vm_compute in H. discriminate H.
Qed.

(** C1, amended: [image/png] never satisfies the MIME allow-list, and a
    PNG response is rejected whenever its URL matches no pattern of the
    URL allow-list and the keyword fallback does not apply.  When the URL
    matches a pattern or the fallback applies, the response is treated as
    any classified response is: rejected by the tab, status, exclusion and
    size guards, handed to [addStream] otherwise.  On an empty detector
    [a.mp4] served as PNG is stored as [mp4] and [/movie/42], fetched by
    script and served as PNG, is stored as [unknown] through the keyword
    fallback alone; [a.mp4] of 100 bytes and [/poster/a.mp4] are not. *)
Theorem C1_png_rejected_without_url_match st details now :
  isVideoMime "image/png" = false /\
  (contentType_of details = "image/png" ->
   isVideoUrl (d_url details) = false ->
   isMediaType (d_type details) && looksLikeVideo (d_url details) "image/png" = false ->
   handleResponse st details now = st) /\
  (contentType_of details = "image/png" ->
   isVideoUrl (d_url details)
   || (isMediaType (d_type details) && looksLikeVideo (d_url details) "image/png") = true ->
   handleResponse st details now
   = if (d_tabId details <? 0) || failed (d_statusCode details)
        || some_test EXCLUDE_PATTERNS (d_url details)
        || too_small (size_of details) (detectStreamType (d_url details) "image/png")
     then st
     else addStream st (d_tabId details) (stream_of details now)) /\
  getStreams
    (handleResponse init
       (response 1 "http://x.com/a.mp4" "image" [content_type "image/png"]) 0) 1
  = [{| url := "http://x.com/a.mp4"; type := mp4; size := None; quality := None;
        contentType := Some "image/png"; timestamp := 0 |}] /\
  (isVideoUrl "http://x.com/movie/42" = false /\
   getStreams
     (handleResponse init
        (response 1 "http://x.com/movie/42" "xmlhttprequest"
           [content_type "image/png"]) 0) 1
   = [{| url := "http://x.com/movie/42"; type := unknown; size := None;
         quality := None; contentType := Some "image/png"; timestamp := 0 |}]) /\
  handleResponse init
    (response 1 "http://x.com/a.mp4" "image"
       [content_type "image/png"; content_length "100"]) 0 = init /\
  handleResponse init
    (response 1 "http://x.com/poster/a.mp4" "image" [content_type "image/png"]) 0
  = init.
Proof.
  split; [reflexivity|]. split; [|split; [|split; [|split; [|split]]]].
  - intros Hct Hurl Hweak. apply handleResponse_not_classified.
    unfold classified. rewrite Hct, Hurl, Hweak. reflexivity.
  - intros Hct Hreach. unfold handleResponse, classified. rewrite Hct.
    change (isVideoMime "image/png") with false. cbn [orb].
    rewrite <- orb_assoc, Hreach.
    destruct (d_tabId details <? 0), (failed (d_statusCode details)),
      (some_test EXCLUDE_PATTERNS (d_url details)),
      (too_small (size_of details) (detectStreamType (d_url details) "image/png"));
      reflexivity.
  - vm_compute. reflexivity.
  - split; vm_compute; reflexivity.
  - vm_compute. reflexivity.
  - vm_compute. reflexivity.
Qed.

Lemma C1_png_rejected_witness :
  handleResponse init
    (response 1 "http://x.com/logo" "image" [content_type "image/png"]) 0 = init.
Proof.
  apply (proj1 (proj2 (C1_png_rejected_without_url_match init
    (response 1 "http://x.com/logo" "image" [content_type "image/png"]) 0)));
    reflexivity.
Defined.

(** C2: a URL that matches an exclusion pattern is rejected whatever the
    MIME type, the URL allow-list and the resource type say; so is every
    URL ending in [/ad/tracking/video.mp4?x=1], although it matches the
    [.mp4] pattern of the allow-list. *)
Theorem C2_exclusion_first :
  (forall st details now,
     some_test EXCLUDE_PATTERNS (d_url details) = true ->
     handleResponse st details now = st) /\
  (forall (prefix : string) st tabId ty status headers now,
     let u := (prefix ++ "/ad/tracking/video.mp4?x=1")%string in
     isVideoUrl u = true /\
     handleResponse st
       {| d_url := u; d_tabId := tabId; d_type := ty; d_statusCode := status;
          d_responseHeaders := headers |} now = st).
Proof.
  assert (Hgen : forall st details now,
             some_test EXCLUDE_PATTERNS (d_url details) = true ->
             handleResponse st details now = st).
  { intros st details now Hex. unfold handleResponse. rewrite Hex.
    destruct (d_tabId details <? 0), (failed (d_statusCode details)); reflexivity. }
  split; [exact Hgen|].
  intros prefix st tabId ty status headers now u. split.
  - apply some_test_suffix. reflexivity.
  - apply Hgen. apply some_test_suffix. reflexivity.
Qed.

Lemma C2_exclusion_first_witness :
  handleResponse init
    (response 1 "https://cdn.example.com/pixel/clip.mp4" "media"
       [content_type "video/mp4"]) 0 = init.
Proof.
  apply (proj1 C2_exclusion_first). reflexivity.
Defined.

End Classification.

(* ===================================================================== *)
(** * The stream detector: the per-tab lists *)
(* ===================================================================== *)

Section Store.
Import Regex Types StreamDetector.

(** The two early returns of [addStream] as one test. *)
Definition accepts (existing : list DetectedStream) (stream : DetectedStream) : bool :=
  negb (has_url existing stream)
  && negb (hasSimilar existing stream
           && negb (StreamType_eqb (type stream) hls)
           && negb (StreamType_eqb (type stream) dash)).

Lemma addStream_rejected st tabId stream :
  accepts (getStreams st tabId) stream = false ->
  addStream st tabId stream = st.
Proof.
  unfold accepts, addStream, getStreams. intros H.
  destruct (has_url _ stream); [reflexivity|].
  simpl in H. apply negb_false_iff in H. rewrite H. reflexivity.
Qed.

Lemma addStream_accepted st tabId stream :
  accepts (getStreams st tabId) stream = true ->
  addStream st tabId stream
  = {| streams := <[tabId := push_bounded (getStreams st tabId) stream]> (streams st);
       sent := sent st ++ [(tabId, stream)] |}.
Proof.
  unfold accepts, addStream, getStreams. intros H.
  apply andb_true_iff in H as [H1 H2].
  apply negb_true_iff in H1, H2. rewrite H1, H2. reflexivity.
Qed.

Lemma getStreams_insert (m : gmap Z (list DetectedStream)) sent0 tabId l tab :
  getStreams {| streams := <[tabId := l]> m; sent := sent0 |} tab
  = if decide (tabId = tab) then l
    else getStreams {| streams := m; sent := sent0 |} tab.
Proof.
  unfold getStreams. simpl. rewrite lookup_insert.
  destruct (decide (tabId = tab)); reflexivity.
Qed.

Lemma getStreams_addStream st tabId stream tab :
  getStreams (addStream st tabId stream) tab
  = if decide (tabId = tab) then
      if accepts (getStreams st tabId) stream
      then push_bounded (getStreams st tabId) stream
      else getStreams st tabId
    else getStreams st tab.
Proof.
  destruct (accepts (getStreams st tabId) stream) eqn:Hacc.
  - rewrite (addStream_accepted _ _ _ Hacc), getStreams_insert.
    destruct (decide (tabId = tab)); reflexivity.
  - rewrite (addStream_rejected _ _ _ Hacc).
    destruct (decide (tabId = tab)) as [->|]; reflexivity.
Qed.

(** A property of lists that [addStream] keeps keeps holding, for every
    tab, along every run of events. *)
Definition preserved (P : list DetectedStream -> Prop) : Prop :=
  P [] /\
  forall existing stream,
    P existing -> accepts existing stream = true ->
    P (push_bounded existing stream).

Lemma handleResponse_cases st details now :
  handleResponse st details now = st \/
  handleResponse st details now
  = addStream st (d_tabId details) (stream_of details now).
Proof.
  unfold handleResponse.
  repeat match goal with |- context [if ?b then _ else _] => destruct b end;
    auto.
Qed.

Lemma step_preserves P st e :
  preserved P ->
  (forall tab, P (getStreams st tab)) ->
  forall tab, P (getStreams (step st e) tab).
Proof.
  intros [Hnil Hpush] Hst tab.
  assert (Hadd : forall tabId stream, P (getStreams (addStream st tabId stream) tab)).
  { intros tabId stream. rewrite getStreams_addStream.
    destruct (decide (tabId = tab)) as [->|]; [|apply Hst].
    destruct (accepts (getStreams st tab) stream) eqn:Hacc; [|apply Hst].
    apply Hpush; [apply Hst | exact Hacc]. }
  assert (Hset : forall tabId,
            P (getStreams {| streams := <[tabId := []]> (streams st);
                             sent := sent st |} tab)).
  { intros tabId. rewrite getStreams_insert.
    destruct (decide (tabId = tab)); [exact Hnil|]. destruct st; apply Hst. }
  destruct e as [details now|details now|tabId|tabId status newUrl|tabId]; simpl.
  - destruct (handleResponse_cases st details now) as [-> | ->]; [apply Hst | apply Hadd].
  - destruct (handleResponse_cases st details now) as [-> | ->]; [apply Hst | apply Hadd].
  - unfold getStreams; simpl. rewrite lookup_delete.
    destruct (decide (tabId = tab)); [exact Hnil | apply Hst].
  - destruct status as [status'|]; [|apply Hst].
    destruct newUrl as [u|]; [|apply Hst].
    destruct (_ && _); [apply Hset | apply Hst].
  - apply Hset.
Qed.

Lemma run_events_preserves P es :
  preserved P ->
  forall st, (forall tab, P (getStreams st tab)) ->
  forall tab, P (getStreams (run_events st es) tab).
Proof.
  intros HP. induction es as [|e es IH]; intros st Hst tab; simpl; [apply Hst|].
  apply IH. apply step_preserves; assumption.
Qed.

Lemma reachable_preserves P es tab :
  preserved P -> P (getStreams (run_events init es) tab).
Proof.
  intros HP. apply run_events_preserves; [exact HP|].
  intros tab'. apply HP.
Qed.

(** The URLs of a list are pairwise distinct. *)
Definition distinct_urls (l : list DetectedStream) : Prop := NoDup (url <$> l).

Lemma has_url_false existing stream :
  has_url existing stream = false -> url stream ∉ url <$> existing.
Proof.
  unfold has_url. intros H Hin.
  apply list_elem_of_fmap in Hin as (s & Hs & Hin).
  assert (existsb (fun s0 => String.eqb (url s0) (url stream)) existing = true).
  { apply existsb_exists. exists s. split; [apply list_elem_of_In, Hin|].
    rewrite Hs. apply String.eqb_refl. }
  congruence.
Qed.

Lemma NoDup_tail {A} (l : list A) : NoDup l -> NoDup (tail l).
Proof. destruct l; simpl; [auto|]. intros H. apply NoDup_cons in H. tauto. Qed.

Lemma distinct_urls_preserved : preserved distinct_urls.
Proof.
  split; [constructor|].
  intros existing stream Hnd Hacc. unfold distinct_urls, push_bounded in *.
  apply andb_true_iff in Hacc as [Hurl _]. apply negb_true_iff in Hurl.
  assert (Hpushed : NoDup (url <$> existing ++ [stream])).
  { rewrite fmap_app. apply NoDup_app. split; [exact Hnd|]. split.
    - intros x Hx Hx'. simpl in Hx'. apply list_elem_of_singleton in Hx'. subst x.
      exact (has_url_false _ _ Hurl Hx).
    - simpl. apply NoDup_singleton. }
  destruct (30 <? length (existing ++ [stream]))%nat; [|exact Hpushed].
  rewrite fmap_tail. apply NoDup_tail, Hpushed.
Qed.

(** C3: whatever responses, navigations, tab closures and resets were
    observed, the list [getStreams] returns for a tab never holds two
    entries with the same URL. *)
Theorem C3_urls_unique (es : list Event) (tabId : Z) :
  NoDup (url <$> getStreams (run_events init es) tabId).
Proof. apply (reachable_preserves distinct_urls), distinct_urls_preserved. Qed.

Definition bounded (l : list DetectedStream) : Prop := (length l <= 30)%nat.

Lemma bounded_preserved : preserved bounded.
Proof.
  split; [unfold bounded; simpl; lia|].
  intros existing stream Hlen _. unfold bounded, push_bounded in *.
  destruct (30 <? length (existing ++ [stream]))%nat eqn:Hfull.
  - rewrite length_tl, length_app. simpl. lia.
  - apply Nat.ltb_ge in Hfull. exact Hfull.
Qed.

Lemma preserved_and P Q : preserved P -> preserved Q -> preserved (fun l => P l /\ Q l).
Proof.
  intros [HP0 HP] [HQ0 HQ]. split; [split; assumption|].
  intros existing stream [HPe HQe] Hacc. split; [apply HP | apply HQ]; assumption.
Qed.

Lemma push_bounded_room existing stream :
  (length existing < 30)%nat -> push_bounded existing stream = existing ++ [stream].
Proof.
  intros Hlen. unfold push_bounded.
  destruct (30 <? length (existing ++ [stream]))%nat eqn:Hfull; [|reflexivity].
  apply Nat.ltb_lt in Hfull. rewrite length_app in Hfull. simpl in Hfull. lia.
Qed.

Lemma push_bounded_full oldest rest stream :
  length (oldest :: rest) = 30%nat ->
  push_bounded (oldest :: rest) stream = rest ++ [stream].
Proof.
  intros Hlen. unfold push_bounded.
  destruct (30 <? length ((oldest :: rest) ++ [stream]))%nat eqn:Hfull; [reflexivity|].
  apply Nat.ltb_ge in Hfull. rewrite length_app in Hfull. simpl in *. lia.
Qed.

(** The responses to [n] distinct files, oldest first. *)
Definition file_url (i : nat) : string :=
  ("https://cdn.example.com/v" ++ Js.toString (Z.of_nat i) ++ ".mp4")%string.

Definition file_response (i : nat) : WebResponseDetails :=
  response 1 (file_url i) "media" [content_type "video/mp4"].

Definition file_events (n : nat) : list Event :=
  (fun i => ResponseStarted (file_response i) (Z.of_nat i)) <$> seq 0 n.

(** C4: the list of a tab never grows beyond 30 entries; an accepted
    stream is appended at the end, and when the list was full the entry
    at its head (the oldest) is the one that leaves while the new one is
    last. *)
Theorem C4_bounded_fifo (es : list Event) (tabId : Z) (stream : DetectedStream) :
  let st := run_events init es in
  let existing := getStreams st tabId in
  let after := getStreams (addStream st tabId stream) tabId in
  (length existing <= 30)%nat /\
  (accepts existing stream = true ->
   ((length existing < 30)%nat -> after = existing ++ [stream]) /\
   (length existing = 30%nat ->
    exists oldest rest,
      existing = oldest :: rest /\ after = rest ++ [stream] /\
      (oldest ∉ after) /\ last after = Some stream)).
Proof.
  intros st existing after.
  destruct (reachable_preserves _ es tabId
              (preserved_and _ _ bounded_preserved distinct_urls_preserved))
    as [Hlen Hnd].
  fold st in Hlen, Hnd. fold existing in Hlen, Hnd.
  split; [exact Hlen|]. intros Hacc.
  assert (Hafter : after = push_bounded existing stream).
  { unfold after. rewrite getStreams_addStream.
    destruct (decide (tabId = tabId)); [|congruence].
    fold st. fold existing. rewrite Hacc. reflexivity. }
  split.
  - intros Hroom. rewrite Hafter. apply push_bounded_room, Hroom.
  - intros Hfull. destruct existing as [|oldest rest] eqn:Hex; [discriminate|].
    exists oldest, rest. rewrite Hafter, (push_bounded_full _ _ _ Hfull).
    split; [reflexivity|]. split; [reflexivity|]. split.
    + unfold distinct_urls in Hnd. simpl in Hnd. apply NoDup_cons in Hnd as [Hfresh _].
      apply andb_true_iff in Hacc as [Hurl _]. apply negb_true_iff in Hurl.
      intros Hin. apply elem_of_app in Hin as [Hin|Hin].
      * apply Hfresh, list_elem_of_fmap. exists oldest. split; [reflexivity | exact Hin].
      * apply list_elem_of_singleton in Hin. subst stream.
        unfold has_url in Hurl. simpl in Hurl. rewrite String.eqb_refl in Hurl.
        discriminate Hurl.
    + apply last_snoc.
Qed.

(** After 31 accepted responses the first file is gone and the 31st is
    last. *)
Lemma C4_bounded_fifo_witness :
  exists oldest rest,
    getStreams (run_events init (file_events 30)) 1 = oldest :: rest /\
    getStreams (addStream (run_events init (file_events 30)) 1
                  (stream_of (file_response 30) 30)) 1
    = rest ++ [stream_of (file_response 30) 30] /\
    (oldest ∉ getStreams (addStream (run_events init (file_events 30)) 1
                            (stream_of (file_response 30) 30)) 1) /\
    last (getStreams (addStream (run_events init (file_events 30)) 1
                        (stream_of (file_response 30) 30)) 1)
    = Some (stream_of (file_response 30) 30).
Proof.
  apply (proj2 (C4_bounded_fifo (file_events 30) 1 (stream_of (file_response 30) 30))).
  - vm_compute. reflexivity.
  - vm_compute. reflexivity.
Defined.

(** The same run through [handleResponse]: 31 responses leave 30 entries,
    files 1 to 30 in the order they came. *)
Example thirty_one_responses :
  url <$> getStreams (run_events init (file_events 31)) 1 = file_url <$> seq 1 30.
Proof. vm_compute. reflexivity. Qed.

(** C5: a stream whose URL, cut at the first [?], equals that of an entry
    of the same type is dropped unless its type is [hls] or [dash], and
    such a type is stored whenever the exact URL is new.  Two responses
    to [video.mp4] that differ in the query leave one entry; [seg1.ts]
    and [seg2.ts], both resolved to [hls], leave two, and so do two
    requests of one [.m3u8] manifest that differ in the query. *)
Theorem C5_near_duplicates :
  (forall st tabId stream,
     hasSimilar (getStreams st tabId) stream = true ->
     type stream <> hls -> type stream <> dash ->
     addStream st tabId stream = st) /\
  (forall st tabId stream,
     has_url (getStreams st tabId) stream = false ->
     type stream = hls \/ type stream = dash ->
     getStreams (addStream st tabId stream) tabId
     = push_bounded (getStreams st tabId) stream) /\
  (forall t1 t2,
     let d1 := response 1 "https://cdn.example.com/video.mp4?t=1" "media"
                 [content_type "video/mp4"] in
     let d2 := response 1 "https://cdn.example.com/video.mp4?t=2" "media"
                 [content_type "video/mp4"] in
     (fun s => (url s, type s))
       <$> getStreams (run_events init [ResponseStarted d1 t1; ResponseStarted d2 t2]) 1
     = [("https://cdn.example.com/video.mp4?t=1", mp4)]) /\
  (forall t1 t2,
     let d1 := response 1 "https://cdn.example.com/seg1.ts" "media"
                 [content_type "video/mp2t"] in
     let d2 := response 1 "https://cdn.example.com/seg2.ts" "media"
                 [content_type "video/mp2t"] in
     (fun s => (url s, type s))
       <$> getStreams (run_events init [ResponseStarted d1 t1; ResponseStarted d2 t2]) 1
     = [("https://cdn.example.com/seg1.ts", hls);
        ("https://cdn.example.com/seg2.ts", hls)]) /\
  (forall t1 t2,
     let d1 := response 1 "https://cdn.example.com/live.m3u8?token=1" "xmlhttprequest"
                 [content_type "application/vnd.apple.mpegurl"] in
     let d2 := response 1 "https://cdn.example.com/live.m3u8?token=2" "xmlhttprequest"
                 [content_type "application/vnd.apple.mpegurl"] in
     (fun s => (url s, type s))
       <$> getStreams (run_events init [ResponseStarted d1 t1; ResponseStarted d2 t2]) 1
     = [("https://cdn.example.com/live.m3u8?token=1", hls);
        ("https://cdn.example.com/live.m3u8?token=2", hls)]).
Proof.
  split; [|split; [|split; [|split]]].
  - intros st tabId stream Hsim Hhls Hdash. apply addStream_rejected.
    unfold accepts. rewrite Hsim. unfold StreamType_eqb.
    rewrite !bool_decide_eq_false_2 by assumption.
    simpl. apply andb_false_r.
  - intros st tabId stream Hurl Hkind. rewrite getStreams_addStream.
    destruct (decide (tabId = tabId)); [|congruence].
    assert (Hacc : accepts (getStreams st tabId) stream = true).
    { unfold accepts. rewrite Hurl. unfold StreamType_eqb.
      destruct Hkind as [-> | ->]; simpl;
        destruct (hasSimilar (getStreams st tabId) stream); reflexivity. }
    rewrite Hacc. reflexivity.
  - intros t1 t2. vm_compute. reflexivity.
  - intros t1 t2. vm_compute. reflexivity.
  - intros t1 t2. vm_compute. reflexivity.
Qed.

Lemma C5_near_duplicates_witness :
  let st := run_events init (file_events 1) in
  addStream st 1 {| url := (file_url 0 ++ "?retry=1")%string; type := mp4;
                    size := None; quality := None; contentType := None;
                    timestamp := 7 |} = st.
Proof.
  apply (proj1 C5_near_duplicates); [vm_compute; reflexivity | discriminate ..].
Defined.

End Store.

(* ===================================================================== *)
(** * The stream detector: the size floor *)
(* ===================================================================== *)

Section SizeFloor.
Import Regex Types StreamDetector.

(** A response that passed the tab, status and exclusion guards and was
    classified as a video. *)
Definition passes (details : WebResponseDetails) : Prop :=
  (d_tabId details <? 0) = false /\
  failed (d_statusCode details) = false /\
  some_test EXCLUDE_PATTERNS (d_url details) = false /\
  classified (d_url details) (d_type details) (contentType_of details) = true.

Definition kind_of (details : WebResponseDetails) : StreamType :=
  detectStreamType (d_url details) (contentType_of details).

Lemma passes_kept st details now :
  passes details ->
  too_small (size_of details) (kind_of details) = false ->
  handleResponse st details now
  = addStream st (d_tabId details) (stream_of details now).
Proof.
  intros (Htab & Hfail & Hex & Hcl) Hsz. apply handleResponse_kept; assumption.
Qed.

(** When the size floor applies. *)
Lemma too_small_iff sz kind :
  too_small sz kind = true <->
  exists n, sz = Some (Js.Num n) /\ n <> 0 /\ n < 5000 /\ kind <> hls /\ kind <> dash.
Proof.
  unfold too_small, StreamType_eqb. split.
  - intros H. apply andb_true_iff in H as [H Hdash].
    apply andb_true_iff in H as [H Hhls].
    apply negb_true_iff, bool_decide_eq_false in Hhls, Hdash.
    destruct sz as [[|n]|]; simpl in H; try discriminate H.
    apply andb_true_iff in H as [Hnz Hlt].
    apply negb_true_iff, Z.eqb_neq in Hnz. apply Z.ltb_lt in Hlt.
    exists n. auto.
  - intros (n & -> & Hnz & Hlt & Hhls & Hdash). simpl.
    rewrite !bool_decide_eq_false_2 by assumption.
    apply Z.eqb_neq in Hnz. apply Z.ltb_lt in Hlt. rewrite Hnz, Hlt. reflexivity.
Qed.

(** C6, as stated, fails: a classified [mp4] response that reports a
    length of 0 bytes is stored. *)
Lemma C6_zero_length_is_stored :
  ~ (forall st details now n,
       passes details ->
       size_of details = Some (Js.Num n) -> n < 5000 ->
       kind_of details <> hls -> kind_of details <> dash ->
       handleResponse st details now = st).
Proof.
  intros H.
  specialize (H init
    (response 1 "http://x.com/a.mp4" "media"
       [content_type "video/mp4"; content_length "0"]) 0 0).
  apply (f_equal (fun st => length (getStreams st 1))) in H;
    [vm_compute in H; discriminate H | | | | |].
  - repeat split; reflexivity.
  - reflexivity.
  - lia.
  - vm_compute. discriminate.
  - vm_compute. discriminate.
Qed.

(** C6, amended: a classified response whose [content-length] parses to a
    number other than 0 and below 5000 is discarded unless its type is
    [hls] or [dash], in which case it goes on to [addStream]; with a
    length of 1200, [a.mp4] is rejected and [a.m3u8] is stored. *)
Theorem C6_size_floor :
  (forall st details now n,
     size_of details = Some (Js.Num n) -> n <> 0 -> n < 5000 ->
     (kind_of details <> hls -> kind_of details <> dash ->
      handleResponse st details now = st) /\
     (passes details -> kind_of details = hls \/ kind_of details = dash ->
      handleResponse st details now
      = addStream st (d_tabId details) (stream_of details now))) /\
  (forall now,
     let d := response 1 "https://cdn.example.com/a.mp4" "media"
                [content_type "video/mp4"; content_length "1200"] in
     kind_of d = mp4 /\ handleResponse init d now = init) /\
  (forall now,
     let d := response 1 "https://cdn.example.com/a.m3u8" "media"
                [content_type "video/mp4"; content_length "1200"] in
     kind_of d = hls /\
     getStreams (handleResponse init d now) 1 = [stream_of d now]).
Proof.
  split; [|split].
  - intros st details now n Hsz Hnz Hlt. split.
    + intros Hhls Hdash. apply handleResponse_too_small.
      apply too_small_iff. exists n. auto.
    + intros Hpass Hkind. apply passes_kept; [exact Hpass|].
      destruct (too_small (size_of details) (kind_of details)) eqn:Hsmall;
        [|reflexivity].
      apply too_small_iff in Hsmall as (_ & _ & _ & _ & Hhls & Hdash).
      destruct Hkind; contradiction.
  - intros now d. split; reflexivity.
  - intros now d. split; vm_compute; reflexivity.
Qed.

Lemma C6_size_floor_witness :
  handleResponse init
    (response 1 "https://cdn.example.com/clip.webm" "media"
       [content_type "video/webm"; content_length "4999"]) 0 = init.
Proof.
  apply (proj1 (proj1 C6_size_floor init
    (response 1 "https://cdn.example.com/clip.webm" "media"
       [content_type "video/webm"; content_length "4999"]) 0 4999
    eq_refl ltac:(lia) ltac:(lia))).
  - vm_compute. discriminate.
  - vm_compute. discriminate.
Defined.




End SizeFloor.

(* ===================================================================== *)
(** * The stream detector: type resolution *)
(* ===================================================================== *)

Section Resolution.
Import Regex Types StreamDetector.

(** The type the URL alone, and the MIME type alone, resolve to. *)
Definition kind_of_url (u : string) : StreamType := detectStreamType u "".
Definition kind_of_mime (ct : string) : StreamType := detectStreamType "" ct.

(** The [if] cascade of [detectStreamType] as a ladder: the type of each
    rung, what the URL must contain to reach it, what the MIME type must
    contain to reach it. *)
Definition ladder : list StreamType := [hls; dash; mp4; webm; flv; hls].

Definition url_rungs (u : string) : list bool :=
  let urlLower := Js.toLowerCase u in
  [Js.includes urlLower ".m3u8";
   Js.includes urlLower ".mpd";
   Js.includes urlLower ".mp4" || Js.includes urlLower ".m4v";
   Js.includes urlLower ".webm";
   Js.includes urlLower ".flv";
   Js.includes urlLower ".ts" || Js.includes urlLower ".m4s"].

Definition mime_rungs (ct : string) : list bool :=
  let ctLower := Js.toLowerCase ct in
  [Js.includes ctLower "mpegurl" || Js.includes ctLower "x-mpegurl";
   Js.includes ctLower "dash";
   Js.includes ctLower "mp4";
   Js.includes ctLower "webm";
   Js.includes ctLower "flv";
   Js.includes ctLower "mp2t"].

(** The first rung reached, 6 when none is. *)
Fixpoint first_rung (rungs : list bool) : nat :=
  match rungs with
  | [] => 0
  | reached :: rest => if reached then 0 else S (first_rung rest)
  end.

Definition kind_at (rung : nat) : StreamType := nth rung ladder unknown.

Lemma includes_empty p : Js.includes "" p = String.prefix p "".
Proof. reflexivity. Qed.

Ltac split_includes :=
  repeat match goal with
         | |- context [Js.includes ?s ?p] =>
             let b := fresh "b" in
             set (b := Js.includes s p) in *; clearbody b; destruct b; simpl
         end.

Lemma detectStreamType_ladder u ct :
  detectStreamType u ct
  = kind_at (Nat.min (first_rung (url_rungs u)) (first_rung (mime_rungs ct))).
Proof.
  unfold detectStreamType, url_rungs, mime_rungs, kind_at, ladder.
  split_includes; reflexivity.
Qed.

Lemma kind_of_url_ladder u : kind_of_url u = kind_at (first_rung (url_rungs u)).
Proof.
  unfold kind_of_url. rewrite detectStreamType_ladder.
  replace (first_rung (mime_rungs "")) with 6%nat by reflexivity.
  unfold url_rungs. split_includes; reflexivity.
Qed.

Lemma kind_of_mime_ladder ct : kind_of_mime ct = kind_at (first_rung (mime_rungs ct)).
Proof.
  unfold kind_of_mime. rewrite detectStreamType_ladder.
  replace (first_rung (url_rungs "")) with 6%nat by reflexivity.
  unfold mime_rungs. split_includes; reflexivity.
Qed.

(** C7, as stated, fails twice: a DASH MIME type overrides the [.mp4] of
    the URL, and an [.m4s] segment served as [video/mp4] resolves to
    [mp4]. *)
Lemma C7_mime_can_override_url :
  ~ (forall u ct,
       kind_of_url u <> unknown -> kind_of_mime ct <> unknown ->
       kind_of_url u <> kind_of_mime ct ->
       detectStreamType u ct = kind_of_url u) /\
  ~ (forall u ct,
       Js.includes (Js.toLowerCase u) ".ts" || Js.includes (Js.toLowerCase u) ".m4s" = true ->
       detectStreamType u ct = hls).
Proof.
  split; intros H.
  - specialize (H "https://cdn.example.com/a.mp4" "application/dash+xml").
    vm_compute in H.
    assert (E : dash = mp4) by (apply H; discriminate).
    discriminate E.
  - specialize (H "https://cdn.example.com/seg1.m4s" "video/mp4" eq_refl).
    vm_compute in H. discriminate H.
Qed.

(** C7, amended: resolution returns the type of the first rung of the
    ladder hls, dash, mp4, webm, flv, segment that the URL or the MIME
    type reaches.  When both reach a rung, the URL decides if its rung is
    not below the one of the MIME type, the MIME type decides otherwise;
    a [.ts] or [.m4s] URL resolves to [hls] when neither reaches one of
    the rungs dash, mp4, webm, flv. *)
Theorem C7_resolution_ladder (u ct : string) :
  let ru := first_rung (url_rungs u) in
  let rm := first_rung (mime_rungs ct) in
  kind_of_url u = kind_at ru /\
  kind_of_mime ct = kind_at rm /\
  detectStreamType u ct = kind_at (Nat.min ru rm) /\
  ((ru <= rm)%nat -> detectStreamType u ct = kind_of_url u) /\
  ((rm < ru)%nat -> detectStreamType u ct = kind_of_mime ct) /\
  (Js.includes (Js.toLowerCase u) ".ts" || Js.includes (Js.toLowerCase u) ".m4s" = true ->
   (forall k, k ∈ [dash; mp4; webm; flv] -> kind_of_url u <> k /\ kind_of_mime ct <> k) ->
   detectStreamType u ct = hls).
Proof.
  intros ru rm.
  pose proof (kind_of_url_ladder u) as Hu. pose proof (kind_of_mime_ladder ct) as Hm.
  pose proof (detectStreamType_ladder u ct) as Hd.
  fold ru in Hu, Hd. fold rm in Hm, Hd.
  split; [exact Hu|]. split; [exact Hm|]. split; [exact Hd|].
  split; [|split].
  - intros Hle. rewrite Hd, Hu, Nat.min_l by exact Hle. reflexivity.
  - intros Hlt. rewrite Hd, Hm, Nat.min_r by lia. reflexivity.
  - intros Hseg Hnone.
    assert (Hk : forall k, k ∈ [dash; mp4; webm; flv] -> detectStreamType u ct <> k).
    { intros k Hin Heq. destruct (Hnone k Hin) as [Hku Hkm].
      rewrite Hd in Heq. destruct (Nat.min_dec ru rm) as [E|E]; rewrite E in Heq.
      - apply Hku. rewrite Hu. exact Heq.
      - apply Hkm. rewrite Hm. exact Heq. }
    assert (Hnot : detectStreamType u ct <> unknown).
    { rewrite Hd. assert (Hru : (ru <= 5)%nat).
      { unfold ru, url_rungs. revert Hseg. split_includes; intros; try lia; discriminate. }
      assert (Hmin : (Nat.min ru rm <= 5)%nat) by lia.
      revert Hmin. generalize (Nat.min ru rm). intros n Hn.
      do 6 (destruct n as [|n]; [discriminate|]). lia. }
    destruct (detectStreamType u ct) eqn:E; try reflexivity; exfalso.
    + apply (Hk mp4); [apply list_elem_of_In; simpl; tauto | reflexivity].
    + apply (Hk webm); [apply list_elem_of_In; simpl; tauto | reflexivity].
    + apply (Hk dash); [apply list_elem_of_In; simpl; tauto | reflexivity].
    + apply (Hk flv); [apply list_elem_of_In; simpl; tauto | reflexivity].
    + apply Hnot. reflexivity.
Qed.

Lemma C7_resolution_ladder_witness :
  detectStreamType "https://cdn.example.com/live/index.m3u8" "video/mp4"
  = kind_of_url "https://cdn.example.com/live/index.m3u8".
Proof.
  apply (proj1 (proj2 (proj2 (proj2
    (C7_resolution_ladder "https://cdn.example.com/live/index.m3u8" "video/mp4"))))).
  apply Nat.leb_le. vm_compute. reflexivity.
Defined.

End Resolution.

(* ===================================================================== *)
(** * The stream detector: quality labels *)
(* ===================================================================== *)

Section Quality.
Import Regex Types StreamDetector.

(** The order of the rules as the specification lists them: the [res]
    parameter and the textual token before the [itag] parameter. *)
Definition quality_patterns_as_specified : list re :=
  [q_progressive; q_width; q_height; q_quality; q_res; q_token; q_itag].

Lemma detectQuality_from_none patterns u :
  (forall p, p ∈ patterns -> exec true p u = None) ->
  detectQuality_from patterns u = None.
Proof.
  induction patterns as [|p ps IH]; intros Hnone; simpl; [reflexivity|].
  rewrite (Hnone p) by apply list_elem_of_here.
  apply IH. intros q Hq. apply Hnone, list_elem_of_further, Hq.
Qed.

Lemma detectQuality_from_first earlier p later u m :
  (forall q, q ∈ earlier -> exec true q u = None) ->
  exec true p u = Some m ->
  detectQuality_from (earlier ++ p :: later) u = quality_of_capture <$> m.
Proof.
  induction earlier as [|q qs IH]; intros Hnone Hp; simpl.
  - rewrite Hp. reflexivity.
  - rewrite (Hnone q) by apply list_elem_of_here.
    apply IH; [|exact Hp]. intros r Hr. apply Hnone, list_elem_of_further, Hr.
Qed.

Lemma q_progressive_needs_digit c s :
  Js.is_digit c = false -> match_here true q_progressive (String c s) = None.
Proof. intros Hc. unfold match_here. simpl. rewrite Hc. reflexivity. Qed.

(** A repeat that fails on [s] also fails on [s] followed by input that
    opens with a character outside the class, when the continuation fails
    there as well. *)
Lemma rep_none_append {R : Type} (t : ascii -> bool) c rest
    (k k' : string -> option R) :
  t c = false ->
  (forall s, k s = None -> k' (s ++ String c rest)%string = None) ->
  forall s lo hi,
    rep t lo hi s k = None ->
    rep t lo hi (s ++ String c rest)%string k' = None.
Proof.
  intros Hc Hk. induction s as [|a s IH]; intros lo hi Hnone.
  - change ("" ++ String c rest)%string with (String c rest).
    cbn [rep] in *. rewrite Hc. cbn [andb].
    destruct lo; [|reflexivity]. apply (Hk ""%string), Hnone.
  - change (String a s ++ String c rest)%string
      with (String a (s ++ String c rest)%string).
    cbn [rep] in *.
    destruct (t a && match hi with Some O => false | _ => true end).
    + destruct (rep t (Nat.pred lo) (Nat.pred <$> hi) s k) eqn:Hinner;
        [discriminate Hnone|].
      rewrite (IH _ _ Hinner).
      destruct lo; [|reflexivity]. apply (Hk (String a s)), Hnone.
    + destruct lo; [|reflexivity]. apply (Hk (String a s)), Hnone.
Qed.

(** An [NNNp] token cannot run into a character that is neither a digit
    nor a [p]: no match at the head of [s] means no match at the head of
    [s] followed by such a character. *)
Lemma q_progressive_none_append s c rest :
  Js.is_digit c = false -> char_eq true c "p" = false ->
  match_here true q_progressive s = None ->
  match_here true q_progressive (s ++ String c rest)%string = None.
Proof.
  intros Hdigit Hp. unfold match_here, q_progressive, d34.
  cbn [cat run]. apply rep_none_append; [exact Hdigit|].
  intros [|a s'] Hnone.
  - change ("" ++ String c rest)%string with (String c rest).
    cbv iota beta. rewrite Hp. reflexivity.
  - change (String a s' ++ String c rest)%string
      with (String a (s' ++ String c rest)%string).
    cbv iota beta in *.
    destruct (char_eq true a "p"); [discriminate Hnone|reflexivity].
Qed.

(** The search for an [NNNp] token skips a prefix that holds none. *)
Lemma exec_q_progressive_skip pre c rest :
  Js.is_digit c = false -> char_eq true c "p" = false ->
  test true q_progressive pre = false ->
  exec true q_progressive (pre ++ String c rest)%string
  = exec true q_progressive (String c rest).
Proof.
  intros Hdigit Hp. unfold test.
  induction pre as [|a pre IH]; intros Hnone; [reflexivity|].
  cbn [exec] in Hnone.
  destruct (match_here true q_progressive (String a pre)) eqn:Hhere;
    [discriminate Hnone|].
  change (String a pre ++ String c rest)%string
    with (String a (pre ++ String c rest)%string).
  cbn [exec].
  change (String a (pre ++ String c rest)%string)
    with (String a pre ++ String c rest)%string at 1.
  rewrite (q_progressive_none_append _ _ _ Hdigit Hp Hhere).
  apply IH, Hnone.
Qed.

Lemma exec_q_progressive_720 post :
  exec true q_progressive ("_720p_" ++ post)%string = Some (Some "720").
Proof.
  change ("_720p_" ++ post)%string with (String "_" ("720p_" ++ post)%string).
  cbn [exec]. rewrite q_progressive_needs_digit by reflexivity.
  change ("720p_" ++ post)%string
    with (String "7" (String "2" (String "0" (String "p" (String "_" post))))).
  apply exec_here. unfold match_here, q_progressive, d34.
  cbn [cat run rep cls_test Nat.pred fmap option_fmap option_map].
  change (Js.is_digit "7") with true. change (Js.is_digit "2") with true.
  change (Js.is_digit "0") with true. change (Js.is_digit "p") with false.
  cbn [andb]. change (char_eq true "p" "p") with true. cbv iota.
  match goal with
  | |- context [substring 0 ?n _] => replace n with 3%nat by (simpl; lia)
  end.
  reflexivity.
Qed.

(** Labels of numeric captures: the table for an itag, the digits
    themselves below 1000 otherwise, and from 1000 on the Number value of
    the digits as JavaScript prints it, which is not always the digits
    read. *)
Lemma quality_of_capture_numbers :
  quality_of_capture "37" = "1080p" /\
  quality_of_capture "720" = "720" /\
  quality_of_capture "1080" = "1080p" /\
  quality_of_capture "0001080" = "1080p" /\
  quality_of_capture "9007199254740993" = "9007199254740992p" /\
  quality_of_capture "18446744073709551616" = "18446744073709552000p" /\
  quality_of_capture "1000000000000000000000" = "1e+21p" /\
  quality_of_capture "12345678901234567890123" = "1.2345678901234568e+22p".
Proof. vm_compute. repeat split. Qed.

(** C8, as stated, fails twice.  The [itag] rule is tried before the
    [res] rule and the textual token, so a URL that carries both [res=480]
    and [itag=37] is labelled from the itag.  And a URL that contains
    [_720p_] is labelled from an earlier [NNNp] token when there is one:
    the label of [.../1080p/clip_720p_.mp4] is [1080p], which does not
    contain 720. *)
Lemma C8_stated_order_and_token_fail :
  ~ (forall u, detectQuality u = detectQuality_from quality_patterns_as_specified u) /\
  ~ (forall pre post,
       exists label,
         detectQuality (pre ++ "_720p_" ++ post)%string = Some label /\
         Js.includes label "720" = true).
Proof.
  split.
  - intros H. specialize (H "https://cdn.example.com/v?res=480&itag=37").
    vm_compute in H. discriminate H.
  - intros H.
    destruct (H "https://cdn.example.com/1080p/clip" ".mp4") as (label & Hlabel & H720).
    vm_compute in Hlabel. injection Hlabel as <-.
    vm_compute in H720. discriminate H720.
Qed.

(** C8, amended: the rules are tried in the order [NNNp], [WxH],
    [quality=], [itag=], [res=], textual token; the first pattern that
    matches decides the label through [quality_of_capture] (the itag
    table for a numeric capture), and no label is produced when none
    matches.  A URL whose first match is [itag=37] is labelled [1080p];
    a URL with [_720p_] and no [NNNp] token before it is labelled
    [720]. *)
Theorem C8_quality_first_match :
  quality_patterns
  = [q_progressive; q_width; q_height; q_quality; q_itag; q_res; q_token] /\
  (forall u,
     (forall p, p ∈ quality_patterns -> exec true p u = None) ->
     detectQuality u = None) /\
  (forall u earlier p later m,
     quality_patterns = earlier ++ p :: later ->
     (forall q, q ∈ earlier -> exec true q u = None) ->
     exec true p u = Some m ->
     detectQuality u = quality_of_capture <$> m) /\
  (forall u,
     (forall q, q ∈ [q_progressive; q_width; q_height; q_quality] ->
                exec true q u = None) ->
     exec true q_itag u = Some (Some "37") ->
     detectQuality u = Some "1080p") /\
  detectQuality "https://cdn.example.com/videoplayback?itag=37" = Some "1080p" /\
  (forall pre post,
     test true q_progressive pre = false ->
     detectQuality (pre ++ "_720p_" ++ post)%string = Some "720").
Proof.
  split; [reflexivity|]. split; [|split; [|split; [|split]]].
  - intros u Hnone. apply detectQuality_from_none, Hnone.
  - intros u earlier p later m Hsplit Hnone Hp. unfold detectQuality.
    rewrite Hsplit. apply detectQuality_from_first; assumption.
  - intros u Hnone Hitag.
    change (detectQuality u)
      with (detectQuality_from
              ([q_progressive; q_width; q_height; q_quality]
               ++ q_itag :: [q_res; q_token]) u).
    rewrite (detectQuality_from_first _ _ _ _ _ Hnone Hitag). reflexivity.
  - reflexivity.
  - intros pre post Hfree.
    change (detectQuality (pre ++ "_720p_" ++ post)%string)
      with (detectQuality_from
              ([] ++ q_progressive :: [q_width; q_height; q_quality; q_itag; q_res; q_token])
              (pre ++ "_720p_" ++ post)%string).
    rewrite (detectQuality_from_first [] q_progressive _ _ (Some "720")).
    + reflexivity.
    + intros q Hq. apply not_elem_of_nil in Hq. contradiction.
    + change ("_720p_" ++ post)%string with (String "_" ("720p_" ++ post)%string).
      rewrite (exec_q_progressive_skip pre "_" _ eq_refl eq_refl Hfree).
      apply exec_q_progressive_720.
Qed.

Lemma C8_quality_first_match_witness :
  detectQuality "https://cdn1.example.com/clip_720p_.mp4" = Some "720".
Proof.
  apply (proj2 (proj2 (proj2 (proj2 (proj2 C8_quality_first_match))))
           "https://cdn1.example.com/clip" ".mp4").
  reflexivity.
Defined.

End Quality.

(* ===================================================================== *)
(** * The DOM scan *)
(* ===================================================================== *)

Section ScanFacts.
Import Regex Types Types.Video VideoDetector.

Variable clock : nat -> Z.
Variable Number : string -> float.

(** The record [extractVideoSources] pushes for a URL found in markup. *)
Definition markup_stream (u : string) (mime : option string) (at_ : nat) : DetectedStream :=
  {| Types.url := u; type := detectStreamTypeFromUrl u; size := None;
     quality := None; contentType := mime; timestamp := clock at_ |}.

(** When the sources that the selector picks all sit inside a [<video>],
    [detectSourceTags] has nothing to report. *)
Lemma detectSourceTags_nested doc calls :
  (forall x, x ∈ flat_map (sources_of false) (body doc) ->
             source_selected x.1 = true -> x.2 = true) ->
  detectSourceTags clock doc calls = [].
Proof.
  intros Hnested. unfold detectSourceTags.
  set (selected := List.filter _ _).
  assert (Hsel : forall x, x ∈ selected -> x.2 = true).
  { intros x Hx. unfold selected in Hx.
    apply list_elem_of_In, filter_In in Hx. destruct Hx as [Hx Hpicked].
    apply Hnested; [apply list_elem_of_In, Hx|].
    destruct x as [source inVideo]. exact Hpicked. }
  clearbody selected.
  assert (Hfold : forall acc,
            fold_left
              (fun videos '(source, inVideo) =>
                 if (inVideo : bool) then videos
                 else
                   match source_getAttribute_src source with
                   | Some src =>
                       if Js.truthy src then
                         videos ++ [{|
                           platform := html5;
                           videoId := None;
                           title := Some (document_title doc);
                           duration := None;
                           url := location_href doc;
                           thumbnailUrl := None;
                           streams := Some [{| Types.url := src;
                                               type := detectStreamTypeFromUrl src;
                                               size := None;
                                               quality := None;
                                               contentType := None;
                                               timestamp := clock (calls + length videos)%nat |}];
                           sourceUrl := Some src
                         |}]
                       else videos
                   | None => videos
                   end)
              selected acc = acc).
  { induction selected as [|[source inVideo] rest IH]; intros acc; [reflexivity|].
    assert (inVideo = true) as ->
      by apply (Hsel (source, inVideo)), list_elem_of_here.
    simpl. apply IH. intros x Hx. apply Hsel, list_elem_of_further, Hx. }
  apply Hfold.
Qed.

Lemma deduplicateVideos_one info : deduplicateVideos [info] = [info].
Proof.
  unfold deduplicateVideos. simpl.
  rewrite bool_decide_eq_false_2 by apply not_elem_of_empty. reflexivity.
Qed.

Lemma or_else_truthy a b : Js.truthy a = true -> Js.or_else a b = a.
Proof. intros H. unfold Js.or_else. rewrite H. reflexivity. Qed.

(** The record of a [<video>] of sufficient area whose [src] and whose
    single nested [<source>] carry shareable URLs. *)
Lemma html5_info_shareable doc calls index video children source :
  flat_map (sources_of true) children = [(source, true)] ->
  PrimFloat.ltb (rect_width video * rect_height video) 10000 = false ->
  Js.truthy (video_src video) = true -> is_blob (video_src video) = false ->
  Js.truthy (source_src source) = true -> is_blob (source_src source) = false ->
  exists info,
    html5_info clock doc calls index video children = Some info /\
    platform info = html5 /\
    videoId info = None /\
    sourceUrl info = Some (video_src video) /\
    streams info
    = Some [markup_stream (video_src video) None calls;
            markup_stream (source_src source) (or_undefined (source_type source))
              (calls + 1)].
Proof.
  intros Hsources Harea Hsrc Hblob Hsrc' Hblob'.
  unfold html5_info. rewrite Harea.
  rewrite (or_else_truthy _ _ Hsrc), Hsrc. cbn [negb]. cbv iota. rewrite Hblob.
  eexists. split; [reflexivity|]. cbn [platform videoId sourceUrl streams negb].
  repeat split.
  unfold extractVideoSources. rewrite Hsources, Hsrc, Hblob.
  cbn [andb negb fold_left]. rewrite Hsrc', Hblob'. reflexivity.
Qed.

(** One such [<video>] on a page whose address is no platform video
    address, whose iframes yield no candidate and whose selected sources
    are all nested: one record, with a stream for each URL. *)
Lemma scan_single_video doc video children source :
  flat_map videos_of (body doc) = [(video, children)] ->
  flat_map (sources_of true) children = [(source, true)] ->
  PrimFloat.ltb (rect_width video * rect_height video) 10000 = false ->
  detectYouTube Number doc = None ->
  detectVimeo doc = None ->
  detectIframeVideos doc = [] ->
  (forall x, x ∈ flat_map (sources_of false) (body doc) ->
             source_selected x.1 = true -> x.2 = true) ->
  Js.truthy (video_src video) = true -> is_blob (video_src video) = false ->
  Js.truthy (source_src source) = true -> is_blob (source_src source) = false ->
  exists info,
    detectAll clock Number doc = [info] /\
    platform info = html5 /\
    sourceUrl info = Some (video_src video) /\
    streams info
    = Some [markup_stream (video_src video) None 0;
            markup_stream (source_src source) (or_undefined (source_type source)) 1].
Proof.
  intros Hvideos Hsources Harea Hyt Hvimeo Hiframes Hnested Hsrc Hblob Hsrc' Hblob'.
  destruct (html5_info_shareable doc 0 0 video children source)
    as (info & Hinfo & Hplatform & Hid & Hurl & Hstreams); try assumption.
  exists info. split; [|auto].
  unfold detectAll. rewrite Hyt, Hvimeo, Hiframes.
  unfold detectAllHTML5Videos. rewrite Hvideos.
  cbn [length seq combine fold_left]. rewrite Hinfo.
  rewrite detectSourceTags_nested by exact Hnested.
  cbn [option_list app]. apply deduplicateVideos_one.
Qed.

End ScanFacts.

(** A 640 by 360 player and the [<source>] nested in it, as the markup
    names them. *)
Definition sample_video : VideoDetector.VideoElement :=
  {| VideoDetector.video_src := "a.mp4";
     VideoDetector.video_currentSrc := "a.mp4";
     VideoDetector.rect_width := 640;
     VideoDetector.rect_height := 360;
     VideoDetector.video_title := "";
     VideoDetector.video_aria_label := None;
     VideoDetector.video_heading := None;
     VideoDetector.video_duration := 12 |}.

Definition sample_source : VideoDetector.SourceElement :=
  {| VideoDetector.source_getAttribute_src := Some "b.webm";
     VideoDetector.source_src := "b.webm";
     VideoDetector.source_type := "video/webm" |}.

(* ===================================================================== *)
(** * The stream detector: sessions *)
(* ===================================================================== *)

Section Sessions.
Import Regex Types StreamDetector.

(** The tab an event is about. *)
Definition event_tab (e : Event) : Z :=
  match e with
  | ResponseStarted details _ | HeadersReceived details _ => d_tabId details
  | TabRemoved tabId | TabUpdated tabId _ _ | ClearStreams tabId => tabId
  end.

(** The guards of [handleResponse] in one test: the response gets as far
    as [addStream]. *)
Definition reaches_store (details : WebResponseDetails) : bool :=
  negb (d_tabId details <? 0)
  && negb (failed (d_statusCode details))
  && negb (some_test EXCLUDE_PATTERNS (d_url details))
  && classified (d_url details) (d_type details) (contentType_of details)
  && negb (too_small (size_of details)
             (detectStreamType (d_url details) (contentType_of details))).

Lemma handleResponse_reaches st details now :
  handleResponse st details now
  = if reaches_store details
    then addStream st (d_tabId details) (stream_of details now)
    else st.
Proof.
  unfold handleResponse, reaches_store.
  destruct (d_tabId details <? 0); [reflexivity|].
  destruct (failed (d_statusCode details)); [reflexivity|].
  destruct (some_test EXCLUDE_PATTERNS (d_url details)); [reflexivity|].
  destruct (classified _ _ _); [|reflexivity].
  destruct (too_small _ _); reflexivity.
Qed.

Lemma accepts_nil stream : accepts [] stream = true.
Proof. reflexivity. Qed.

Lemma push_bounded_last existing stream :
  last (push_bounded existing stream) = Some stream.
Proof.
  unfold push_bounded. destruct (30 <? _)%nat eqn:Hfull; [|apply last_snoc].
  destruct existing as [|s l]; [discriminate Hfull|]. simpl. apply last_snoc.
Qed.

Lemma push_bounded_subset existing stream s :
  s ∈ push_bounded existing stream -> s ∈ existing \/ s = stream.
Proof.
  unfold push_bounded. intros Hin.
  assert (Hin' : s ∈ existing ++ [stream]).
  { destruct (30 <? _)%nat; [|exact Hin].
    destruct (existing ++ [stream]) as [|x l]; [exact Hin|].
    simpl in Hin. apply list_elem_of_further, Hin. }
  apply elem_of_app in Hin' as [H|H]; [left; exact H|].
  right. apply list_elem_of_singleton in H. exact H.
Qed.

(** What one event does to the list of a tab and to the messages. *)
Lemma getStreams_step st e tab :
  tab <> event_tab e -> getStreams (step st e) tab = getStreams st tab.
Proof.
  intros Hne. destruct e as [d now|d now|t|t status newUrl|t]; simpl in *.
  - rewrite handleResponse_reaches. destruct (reaches_store d); [|reflexivity].
    rewrite getStreams_addStream. destruct (decide (d_tabId d = tab)); congruence.
  - rewrite handleResponse_reaches. destruct (reaches_store d); [|reflexivity].
    rewrite getStreams_addStream. destruct (decide (d_tabId d = tab)); congruence.
  - unfold getStreams. simpl. rewrite lookup_delete_ne by congruence. reflexivity.
  - destruct status as [s|]; [|reflexivity]. destruct newUrl as [u|]; [|reflexivity].
    destruct (_ && _); [|reflexivity].
    rewrite getStreams_insert. destruct (decide (t = tab)); [congruence|].
    destruct st; reflexivity.
  - unfold clearStreams. rewrite getStreams_insert.
    destruct (decide (t = tab)); [congruence|]. destruct st; reflexivity.
Qed.

(** X1: an event changes the list of no tab but its own. *)
Theorem X1_other_tabs_untouched (st : Detector) (e : Event) (tab : Z) :
  tab <> event_tab e -> getStreams (step st e) tab = getStreams st tab.
Proof. apply getStreams_step. Qed.

Lemma X1_other_tabs_untouched_witness :
  getStreams (step (run_events init (file_events 3)) (TabRemoved 2)) 1
  = getStreams (run_events init (file_events 3)) 1.
Proof. apply X1_other_tabs_untouched. simpl. lia. Defined.

(** X2: a tab update empties the list of its tab exactly when its status
    is [loading] and it carries a non-empty URL; every other update
    changes nothing.  No message is sent either way. *)
Theorem X2_navigation_reset (st : Detector) (tabId : Z)
    (status newUrl : option string) :
  let st' := step st (TabUpdated tabId status newUrl) in
  sent st' = sent st /\
  (status = Some "loading" -> (exists u, newUrl = Some u /\ u <> "") ->
   getStreams st' tabId = [] /\ streams st' !! tabId = Some []) /\
  (status <> Some "loading" \/ newUrl = None \/ newUrl = Some "" -> st' = st).
Proof.
  simpl. split; [|split].
  - destruct status as [s|]; [|reflexivity]. destruct newUrl as [u|]; [|reflexivity].
    destruct (_ && _); reflexivity.
  - intros -> (u & -> & Hu). destruct u as [|c u]; [congruence|]. simpl.
    unfold getStreams. simpl. rewrite lookup_insert_eq. split; reflexivity.
  - intros [Hs | [-> | ->]].
    + destruct status as [s|]; [|reflexivity]. destruct newUrl as [u|]; [|reflexivity].
      destruct (String.eqb_spec s "loading") as [->|]; [congruence|reflexivity].
    + destruct status; reflexivity.
    + destruct status as [s|]; [|reflexivity]. rewrite andb_false_r. reflexivity.
Qed.

Lemma X2_navigation_reset_witness :
  getStreams (step (run_events init (file_events 3))
                (TabUpdated 1 (Some "loading") (Some "https://example.com/next"))) 1 = []
  /\ streams (step (run_events init (file_events 3))
                (TabUpdated 1 (Some "loading") (Some "https://example.com/next"))) !! 1
     = Some [].
Proof.
  apply (proj1 (proj2 (X2_navigation_reset (run_events init (file_events 3)) 1
                         (Some "loading") (Some "https://example.com/next"))));
    [reflexivity|].
  eexists. split; [reflexivity | discriminate].
Defined.

(** X3: closing a tab removes its key from the map, so its list reads
    empty; a later response for the same tab id starts a new list, and a
    URL stored before the close is stored again. *)
Theorem X3_closed_tab_starts_over (st : Detector) (details : WebResponseDetails)
    (now : Z) :
  let tabId := d_tabId details in
  let closed := step st (TabRemoved tabId) in
  streams closed !! tabId = None /\
  getStreams closed tabId = [] /\
  sent closed = sent st /\
  (reaches_store details = true ->
   getStreams (handleResponse closed details now) tabId = [stream_of details now]).
Proof.
  simpl. unfold getStreams at 1. simpl. rewrite lookup_delete_eq.
  split; [reflexivity|]. split; [reflexivity|]. split; [reflexivity|].
  intros Hreach. rewrite handleResponse_reaches, Hreach, getStreams_addStream.
  destruct (decide (d_tabId details = d_tabId details)); [|congruence].
  unfold getStreams at 1 2. simpl. rewrite lookup_delete_eq. reflexivity.
Qed.

Lemma X3_closed_tab_starts_over_witness :
  getStreams (handleResponse (step (run_events init (file_events 3)) (TabRemoved 1))
                (file_response 0) 9) 1
  = [stream_of (file_response 0) 9].
Proof.
  apply (proj2 (proj2 (proj2 (X3_closed_tab_starts_over
           (run_events init (file_events 3)) (file_response 0) 9)))).
  reflexivity.
Defined.

(** X4: a response for a negative tab id, or with a status code below 200
    or from 400 on, changes nothing; a status code of 0 is handled like a
    missing one. *)
Theorem X4_tab_and_status_guards (st : Detector) (details : WebResponseDetails)
    (now : Z) :
  (d_tabId details < 0 -> handleResponse st details now = st) /\
  (forall c, d_statusCode details = Some c -> c <> 0 -> c < 200 \/ 400 <= c ->
             handleResponse st details now = st) /\
  (d_statusCode details = Some 0 ->
   handleResponse st details now
   = handleResponse st {| d_url := d_url details; d_tabId := d_tabId details;
                          d_type := d_type details; d_statusCode := None;
                          d_responseHeaders := d_responseHeaders details |} now).
Proof.
  split; [|split].
  - intros Htab. unfold handleResponse. apply Z.ltb_lt in Htab. rewrite Htab.
    reflexivity.
  - intros c Hc Hnz Hrange. unfold handleResponse. rewrite Hc. simpl.
    apply Z.eqb_neq in Hnz. rewrite Hnz. simpl.
    assert (Hr : (c <? 200) || (400 <=? c) = true).
    { apply orb_true_iff. destruct Hrange; [left; apply Z.ltb_lt | right; apply Z.leb_le];
        assumption. }
    rewrite Hr. destruct (d_tabId details <? 0); reflexivity.
  - intros Hc. unfold handleResponse, stream_of, contentType_of, size_of. simpl.
    rewrite Hc. reflexivity.
Qed.

Lemma X4_tab_and_status_guards_witness :
  handleResponse init
    {| d_url := "https://cdn.example.com/a.mp4"; d_tabId := 1; d_type := "media";
       d_statusCode := Some 404;
       d_responseHeaders := Some [content_type "video/mp4"] |} 0 = init.
Proof.
  apply (proj1 (proj2 (X4_tab_and_status_guards init
    {| d_url := "https://cdn.example.com/a.mp4"; d_tabId := 1; d_type := "media";
       d_statusCode := Some 404;
       d_responseHeaders := Some [content_type "video/mp4"] |} 0)) 404);
    [reflexivity | lia | lia].
Defined.

Lemma accepts_same_identity existing s s' :
  url s = url s' -> type s = type s' -> accepts existing s = accepts existing s'.
Proof.
  intros Hu Ht. unfold accepts, has_url, hasSimilar. rewrite Hu, Ht. reflexivity.
Qed.

Lemma has_url_member existing s s' :
  s ∈ existing -> url s = url s' -> has_url existing s' = true.
Proof.
  intros Hin Hu. unfold has_url. apply existsb_exists. exists s.
  split; [apply list_elem_of_In, Hin|]. rewrite Hu. apply String.eqb_refl.
Qed.

Lemma last_member {A} (l : list A) x : last l = Some x -> x ∈ l.
Proof.
  intros H. apply last_Some in H as [l' ->].
  apply elem_of_app. right. apply list_elem_of_here.
Qed.

(** X5: both web-request listeners hand the same response to
    [handleResponse]; whatever the first call did, the second one changes
    neither the lists nor the messages. *)
Theorem X5_second_delivery_is_ignored (st : Detector)
    (details : WebResponseDetails) (t1 t2 : Z) :
  handleResponse (handleResponse st details t1) details t2
  = handleResponse st details t1.
Proof.
  rewrite !handleResponse_reaches. destruct (reaches_store details); [|reflexivity].
  set (tab := d_tabId details).
  assert (Hid : forall l, accepts l (stream_of details t2)
                          = accepts l (stream_of details t1))
    by (intros l; apply accepts_same_identity; reflexivity).
  destruct (accepts (getStreams st tab) (stream_of details t1)) eqn:Hacc.
  - apply addStream_rejected. rewrite Hid. unfold accepts.
    rewrite (has_url_member _ (stream_of details t1)); [reflexivity| |reflexivity].
    rewrite getStreams_addStream. destruct (decide (tab = tab)); [|congruence].
    rewrite Hacc. apply last_member, push_bounded_last.
  - rewrite (addStream_rejected _ _ _ Hacc). apply addStream_rejected.
    rewrite Hid. exact Hacc.
Qed.

(** Invariants of the detector along a run of events. *)
Lemma run_events_invariant (Inv : Detector -> Prop) es :
  (forall st e, Inv st -> Inv (step st e)) ->
  forall st, Inv st -> Inv (run_events st es).
Proof.
  intros Hstep. induction es as [|e es IH]; intros st Hst; simpl; [exact Hst|].
  apply IH, Hstep, Hst.
Qed.

(** An entry of a list after an event was there before, or is the record
    of the response just handled, which was announced. *)
Lemma entry_after_step st e tab s :
  s ∈ getStreams (step st e) tab ->
  s ∈ getStreams st tab \/
  exists details now,
    (e = ResponseStarted details now \/ e = HeadersReceived details now) /\
    tab = d_tabId details /\ s = stream_of details now /\
    reaches_store details = true /\
    sent (step st e) = sent st ++ [(tab, s)].
Proof.
  assert (Hresp : forall details now,
            s ∈ getStreams (handleResponse st details now) tab ->
            s ∈ getStreams st tab \/
            (tab = d_tabId details /\ s = stream_of details now /\
             reaches_store details = true /\
             sent (handleResponse st details now) = sent st ++ [(tab, s)])).
  { intros details now. rewrite handleResponse_reaches.
    destruct (reaches_store details) eqn:Hreach; [|auto].
    rewrite getStreams_addStream.
    destruct (decide (d_tabId details = tab)) as [<-|]; [|auto].
    destruct (accepts _ _) eqn:Hacc; [|auto].
    intros Hin. apply push_bounded_subset in Hin as [Hin | ->]; [auto|].
    right. rewrite (addStream_accepted _ _ _ Hacc). auto. }
  destruct e as [d now|d now|t|t status newUrl|t]; simpl.
  - intros Hin. destruct (Hresp d now Hin) as [H|H]; [auto|].
    right. exists d, now. tauto.
  - intros Hin. destruct (Hresp d now Hin) as [H|H]; [auto|].
    right. exists d, now. tauto.
  - unfold getStreams at 1. simpl. rewrite lookup_delete.
    destruct (decide (t = tab)); [intros H; inversion H | auto].
  - destruct status as [s0|]; [|auto]. destruct newUrl as [u|]; [|auto].
    destruct (_ && _); [|auto]. rewrite getStreams_insert.
    destruct (decide (t = tab)); [intros H; inversion H|]. destruct st; auto.
  - unfold clearStreams. rewrite getStreams_insert.
    destruct (decide (t = tab)); [intros H; inversion H|]. destruct st; auto.
Qed.

Lemma sent_grows st e : exists more, sent (step st e) = sent st ++ more.
Proof.
  assert (Hresp : forall details now,
            exists more, sent (handleResponse st details now) = sent st ++ more).
  { intros details now. rewrite handleResponse_reaches.
    destruct (reaches_store details); [|exists []; symmetry; apply app_nil_r].
    destruct (accepts (getStreams st (d_tabId details)) (stream_of details now)) eqn:Hacc.
    - rewrite (addStream_accepted _ _ _ Hacc). eexists. reflexivity.
    - rewrite (addStream_rejected _ _ _ Hacc). exists []. symmetry. apply app_nil_r. }
  destruct e as [d now|d now|t|t status newUrl|t]; simpl; try apply Hresp;
    try (exists []; symmetry; apply app_nil_r).
  destruct status as [s0|]; [|exists []; symmetry; apply app_nil_r].
  destruct newUrl as [u|]; [|exists []; symmetry; apply app_nil_r].
  destruct (_ && _); exists []; symmetry; apply app_nil_r.
Qed.

(** X6: every stream a list holds was announced in a [STREAM_DETECTED]
    message for its tab, and messages, once sent, stay: the messages
    after more events extend those before. *)
Theorem X6_held_streams_were_announced (es more : list Event) :
  let st := run_events init es in
  (forall tab s, s ∈ getStreams st tab -> (tab, s) ∈ sent st) /\
  (exists later, sent (run_events st more) = sent st ++ later).
Proof.
  simpl. split.
  - apply (run_events_invariant
             (fun st => forall tab s, s ∈ getStreams st tab -> (tab, s) ∈ sent st)).
    + intros st e Hst tab s Hin.
      destruct (entry_after_step _ _ _ _ Hin) as [Hold | (d & now & _ & _ & _ & _ & Hsent)].
      * destruct (sent_grows st e) as [later ->]. apply elem_of_app. left.
        apply Hst, Hold.
      * rewrite Hsent. apply elem_of_app. right. apply list_elem_of_here.
    + intros tab s Hin. inversion Hin.
  - generalize (run_events init es). induction more as [|e more IH]; intros st; simpl.
    + exists []. symmetry. apply app_nil_r.
    + destruct (IH (step st e)) as [later ->]. destruct (sent_grows st e) as [m ->].
      exists (m ++ later). symmetry. apply app_assoc.
Qed.

(** What [handleResponse] guarantees of a record it stores, read off the
    record alone. *)
Definition stored_ok (s : DetectedStream) : Prop :=
  let ct := default "" (contentType s) in
  some_test EXCLUDE_PATTERNS (url s) = false /\
  isVideoMime ct || isVideoUrl (url s) || looksLikeVideo (url s) ct = true /\
  type s = detectStreamType (url s) ct /\
  quality s = detectQuality (url s) /\
  too_small (size s) (type s) = false.

Lemma default_or_undefined ct : default "" (or_undefined ct) = ct.
Proof. destruct ct; reflexivity. Qed.

Lemma reaches_store_ok details now :
  reaches_store details = true ->
  0 <= d_tabId details /\ stored_ok (stream_of details now).
Proof.
  unfold reaches_store, stored_ok. intros H.
  repeat (apply andb_true_iff in H as [H ?]).
  repeat match goal with
         | Hn : negb _ = true |- _ => apply negb_true_iff in Hn
         end.
  split; [apply Z.ltb_ge; assumption|].
  simpl. rewrite default_or_undefined.
  split; [assumption|]. split; [|auto].
  unfold classified in *.
  destruct (isVideoMime _); [reflexivity|]. destruct (isVideoUrl _); [reflexivity|].
  simpl in *. match goal with Hc : _ && _ = true |- _ =>
    apply andb_true_iff in Hc as [_ Hc]; exact Hc end.
Qed.

(** X7: whatever the events, every record in a list belongs to a tab id
    that is not negative, has a URL no exclusion pattern matches and that
    one of the three classification layers accepts, carries the type and
    quality label its URL and content type resolve to, and is not below
    the size floor. *)
Theorem X7_stored_records_are_well_formed (es : list Event) (tab : Z)
    (s : DetectedStream) :
  s ∈ getStreams (run_events init es) tab -> 0 <= tab /\ stored_ok s.
Proof.
  revert tab s.
  apply (run_events_invariant
           (fun st => forall tab s, s ∈ getStreams st tab -> 0 <= tab /\ stored_ok s)).
  - intros st e Hst tab s Hin.
    destruct (entry_after_step _ _ _ _ Hin)
      as [Hold | (d & now & _ & -> & -> & Hreach & _)].
    + apply Hst, Hold.
    + apply reaches_store_ok, Hreach.
  - intros tab s Hin. inversion Hin.
Qed.

Lemma X7_stored_records_are_well_formed_witness :
  0 <= 1 /\ stored_ok (stream_of (file_response 2) 2).
Proof.
  apply (X7_stored_records_are_well_formed (file_events 3) 1).
  vm_compute. do 2 apply list_elem_of_further. apply list_elem_of_here.
Defined.

(** Two entries, the first before the second, that share the URL up to
    the first [?] and the type are manifest entries. *)
Definition near_duplicates_are_manifests (l : list DetectedStream) : Prop :=
  forall (i j : nat) s1 s2,
    (i < j)%nat -> l !! i = Some s1 -> l !! j = Some s2 ->
    Js.split_first "?" (url s1) = Js.split_first "?" (url s2) ->
    type s1 = type s2 ->
    type s2 = hls \/ type s2 = dash.

Lemma near_duplicates_preserved : preserved near_duplicates_are_manifests.
Proof.
  split.
  - intros i j s1 s2 _ H. rewrite lookup_nil in H. discriminate H.
  - intros existing stream Hex Hacc.
    assert (Hpushed : near_duplicates_are_manifests (existing ++ [stream])).
    { intros i j s1 s2 Hij H1 H2 Hbase Htype.
      destruct (decide (j < length existing)%nat) as [Hj|Hj].
      - rewrite lookup_app_l in H1 by lia. rewrite lookup_app_l in H2 by lia.
        exact (Hex i j s1 s2 Hij H1 H2 Hbase Htype).
      - assert (Hs2 : s2 = stream).
        { rewrite lookup_app_r in H2 by lia.
          destruct (j - length existing)%nat as [|n] eqn:E; simpl in H2;
            [congruence|]. rewrite lookup_nil in H2. discriminate H2. }
        subst s2.
        assert (Hi : (i < length existing)%nat).
        { apply lookup_lt_Some in H2. rewrite length_app in H2. simpl in H2. lia. }
        rewrite lookup_app_l in H1 by exact Hi.
        apply andb_true_iff in Hacc as [_ Hsim]. apply negb_true_iff in Hsim.
        unfold StreamType_eqb in Hsim.
        destruct (decide (type stream = hls)) as [|Hh]; [auto|].
        destruct (decide (type stream = dash)) as [|Hd]; [auto|].
        rewrite !bool_decide_eq_false_2 in Hsim by assumption.
        simpl in Hsim. rewrite !andb_true_r in Hsim.
        exfalso. unfold hasSimilar in Hsim.
        assert (Hex' : existsb
                  (fun s => String.eqb (Js.split_first "?" (url s))
                              (Js.split_first "?" (url stream))
                            && StreamType_eqb (type s) (type stream)) existing = true).
        { apply existsb_exists. exists s1. split.
          - apply list_elem_of_In, list_elem_of_lookup. eauto.
          - rewrite Hbase, String.eqb_refl. unfold StreamType_eqb.
            rewrite bool_decide_eq_true_2 by exact Htype. reflexivity. }
        congruence. }
    unfold push_bounded. destruct (30 <? _)%nat; [|exact Hpushed].
    intros i j s1 s2 Hij H1 H2. rewrite lookup_tail in H1, H2.
    apply (Hpushed (S i) (S j) s1 s2); [lia | assumption | assumption].
Qed.

(** X8: in every list the detector can reach, two entries that agree on
    the URL up to the first [?] and on the type are both [hls] or both
    [dash]: of any other type the list keeps one entry per file. *)
Theorem X8_one_entry_per_file (es : list Event) (tab : Z) :
  near_duplicates_are_manifests (getStreams (run_events init es) tab).
Proof.
  apply (reachable_preserves near_duplicates_are_manifests),
    near_duplicates_preserved.
Qed.

(** Two requests of one manifest that differ in the query. *)
Definition manifest_response (token : string) : WebResponseDetails :=
  response 1 ("https://cdn.example.com/live.m3u8?token=" ++ token)%string
    "xmlhttprequest" [content_type "application/vnd.apple.mpegurl"].

Lemma X8_one_entry_per_file_witness :
  type (stream_of (manifest_response "2") 1) = hls \/
  type (stream_of (manifest_response "2") 1) = dash.
Proof.
  apply (X8_one_entry_per_file
           [ResponseStarted (manifest_response "1") 0;
            ResponseStarted (manifest_response "2") 1] 1 0%nat 1%nat
           (stream_of (manifest_response "1") 0) (stream_of (manifest_response "2") 1));
    [lia | vm_compute; reflexivity | vm_compute; reflexivity
     | vm_compute; reflexivity | vm_compute; reflexivity].
Defined.

End Sessions.

(* ===================================================================== *)
(** * Literal patterns and substring search *)
(* ===================================================================== *)

Section LiteralPatterns.
Import Regex.

Definition all_ascii : list ascii := List.map ascii_of_nat (seq 0 256).

Lemma all_ascii_complete (a : ascii) : In a all_ascii.
Proof.
  rewrite <- (ascii_nat_embedding a). apply in_map, in_seq.
  split; [lia | apply nat_ascii_bounded].
Qed.

(** A pattern character that the [i] flag and [toLowerCase] treat alike:
    an input character matches it case-insensitively exactly when its
    lower-case form equals it.  True of lower-case letters, digits and
    punctuation; false of capitals. *)
Definition lower_safe (c : ascii) : bool :=
  forallb (fun a => Bool.eqb (char_eq true a c) (Ascii.eqb (Js.lower_char a) c))
    all_ascii.

Fixpoint lower_safe_string (p : string) : bool :=
  match p with
  | EmptyString => true
  | String c p' => lower_safe c && lower_safe_string p'
  end.

Lemma lower_safe_spec c a :
  lower_safe c = true -> char_eq true a c = Ascii.eqb (Js.lower_char a) c.
Proof.
  unfold lower_safe. rewrite forallb_forall. intros H.
  apply Bool.eqb_prop, H, all_ascii_complete.
Qed.

(** The input after its first [n] characters. *)
Fixpoint skip (n : nat) (s : string) : string :=
  match n, s with
  | S n', String _ s' => skip n' s'
  | _, _ => s
  end.

Lemma run_lit_cons {R} ci c p s cap (k : string -> option string -> option R) :
  run ci (lit (String c p)) s cap k
  = run ci (Chr c) s cap (fun s' cap' => run ci (lit p) s' cap' k).
Proof. destruct p; reflexivity. Qed.

Lemma prefix_cons c p a s :
  String.prefix (String c p) (String a s)
  = Ascii.eqb a c && String.prefix p s.
Proof.
  simpl. destruct (ascii_dec c a) as [->|Hne].
  - rewrite Ascii.eqb_refl. reflexivity.
  - destruct (Ascii.eqb_spec a c); [congruence | reflexivity].
Qed.

Lemma prefix_empty_r p : String.prefix p "" = match p with "" => true | _ => false end.
Proof. destruct p; reflexivity. Qed.

Lemma prefix_empty_l s : String.prefix "" s = true.
Proof. destruct s; reflexivity. Qed.

Lemma run_lit_lower {R} p :
  lower_safe_string p = true ->
  forall s cap (k : string -> option string -> option R),
    run true (lit p) s cap k
    = if String.prefix p (Js.toLowerCase s)
      then k (skip (String.length p) s) cap else None.
Proof.
  induction p as [|c p IH]; intros Hsafe s cap k.
  - rewrite prefix_empty_l. destruct s; reflexivity.
  - simpl in Hsafe. apply andb_true_iff in Hsafe as [Hc Hp].
    rewrite run_lit_cons. destruct s as [|a s]; [reflexivity|].
    cbn [run Js.toLowerCase]. rewrite prefix_cons, (lower_safe_spec _ _ Hc).
    destruct (Ascii.eqb (Js.lower_char a) c); [|reflexivity].
    rewrite (IH Hp). reflexivity.
Qed.

Lemma match_here_lit_lower p s :
  lower_safe_string p = true ->
  match_here true (lit p) s
  = if String.prefix p (Js.toLowerCase s) then Some None else None.
Proof. intros Hp. unfold match_here. apply run_lit_lower, Hp. Qed.

(** A literal pattern under the [i] flag finds what [includes] finds in
    the lower-cased input. *)
Lemma test_lit_lower p s :
  lower_safe_string p = true ->
  test true (lit p) s = Js.includes (Js.toLowerCase s) p.
Proof.
  intros Hp. unfold test. induction s as [|a s IH].
  - simpl. rewrite (match_here_lit_lower _ _ Hp). simpl.
    destruct p; reflexivity.
  - cbn [exec Js.toLowerCase Js.includes].
    rewrite (match_here_lit_lower _ _ Hp). cbn [Js.toLowerCase].
    destruct (String.prefix p _); [reflexivity|]. exact IH.
Qed.

(** Whether a match succeeds, whatever it captures. *)
Definition succeeds {A} (o : option A) : bool :=
  match o with Some _ => true | None => false end.

Lemma test_step ci r a s :
  test ci r (String a s) = succeeds (match_here ci r (String a s)) || test ci r s.
Proof. unfold test. cbn [exec]. destruct (match_here ci r (String a s)); reflexivity. Qed.

Lemma test_empty ci r : test ci r "" = succeeds (match_here ci r "").
Proof. unfold test. cbn [exec]. destruct (match_here ci r ""); reflexivity. Qed.

Lemma test_Alt ci r1 r2 s :
  test ci (Alt r1 r2) s = test ci r1 s || test ci r2 s.
Proof.
  assert (Hhere : forall s0, succeeds (match_here ci (Alt r1 r2) s0)
                  = succeeds (match_here ci r1 s0) || succeeds (match_here ci r2 s0)).
  { intros s0. unfold match_here. cbn [run].
    destruct (run ci r1 s0 None _); reflexivity. }
  induction s as [|a s IH].
  - rewrite !test_empty. apply Hhere.
  - rewrite !test_step, Hhere, IH.
    destruct (succeeds (match_here ci r1 (String a s))),
             (succeeds (match_here ci r2 (String a s))),
             (test ci r1 s), (test ci r2 s); reflexivity.
Qed.

Lemma test_alt ci r rs s :
  test ci (alt (r :: rs)) s = existsb (fun r' => test ci r' s) (r :: rs).
Proof.
  revert r. induction rs as [|r' rs IH]; intros r.
  - simpl. rewrite orb_false_r. reflexivity.
  - change (alt (r :: r' :: rs)) with (Alt r (alt (r' :: rs))).
    rewrite test_Alt, IH. reflexivity.
Qed.

End LiteralPatterns.

(* ===================================================================== *)
(** * Keywords: exclusion, the weak fallback, the two type resolvers *)
(* ===================================================================== *)

Section Keywords.
Import Regex Types StreamDetector.

(** [u] contains [kw], whatever the letter case of [u]. *)
Definition mentions (u kw : string) : bool := Js.includes (Js.toLowerCase u) kw.

(** The exclusion patterns that are plain words. *)
Definition excluded_words : list string :=
  ["googleads"; "doubleclick"; "googlesyndication"; "googleadservices";
   "analytics"; "tracking"; "pixel"; "beacon"; "telemetry"; ".woff"; ".ttf";
   "favicon"; "thumbnail"; "preview"; "poster"].

Lemma excluded_words_patterns kw :
  In kw excluded_words -> In (lit kw) EXCLUDE_PATTERNS /\ lower_safe_string kw = true.
Proof.
  unfold excluded_words. intros H.
  repeat (destruct H as [<- | H];
          [split; [unfold EXCLUDE_PATTERNS; simpl; tauto | reflexivity]|]).
  destruct H.
Qed.

(** X9: a URL that contains one of the fifteen excluded words, in any
    letter case and at any place, is never stored, not even when it is a
    video served with a video content type. *)
Theorem X9_excluded_words_block (st : Detector) (details : WebResponseDetails)
    (now : Z) (kw : string) :
  In kw excluded_words ->
  mentions (d_url details) kw = true ->
  some_test EXCLUDE_PATTERNS (d_url details) = true /\
  handleResponse st details now = st.
Proof.
  intros Hkw Hin. destruct (excluded_words_patterns kw Hkw) as [Hpat Hsafe].
  assert (Hex : some_test EXCLUDE_PATTERNS (d_url details) = true).
  { unfold some_test. apply existsb_exists. exists (lit kw).
    split; [exact Hpat|]. rewrite (test_lit_lower _ _ Hsafe). exact Hin. }
  split; [exact Hex|].
  unfold handleResponse. rewrite Hex.
  destruct (d_tabId details <? 0), (failed (d_statusCode details)); reflexivity.
Qed.

Lemma X9_excluded_words_block_witness :
  some_test EXCLUDE_PATTERNS "https://cdn.example.com/Preview/movie.mp4" = true /\
  handleResponse init
    (response 1 "https://cdn.example.com/Preview/movie.mp4" "media"
       [content_type "video/mp4"]) 0 = init.
Proof.
  apply (X9_excluded_words_block init
           (response 1 "https://cdn.example.com/Preview/movie.mp4" "media"
              [content_type "video/mp4"]) 0 "preview").
  - simpl. tauto.
  - reflexivity.
Defined.

Lemma looksLikeVideo_keywords u ct :
  looksLikeVideo u ct
  = existsb (mentions u)
      (if Js.includes ct "octet-stream"
       then ["video"; "media"; "stream"; "play"; "watch"]
       else ["video"; "media"; "stream"; "play"; "watch"; "clip"; "movie"]).
Proof.
  unfold looksLikeVideo. destruct (Js.includes ct "octet-stream").
  - rewrite test_alt. cbn [existsb]. rewrite !test_lit_lower by reflexivity.
    reflexivity.
  - unfold mentions. cbn [List.filter existsb].
    repeat match goal with
           | |- context [Js.includes (Js.toLowerCase u) ?kw] =>
               destruct (Js.includes (Js.toLowerCase u) kw)
           end; reflexivity.
Qed.

(** X10: the weak fallback is a keyword search in the lower-cased URL:
    five keywords when the content type contains [octet-stream], the same
    five and two more otherwise.  So a URL the fallback accepts for an
    octet-stream response it accepts for every content type. *)
Theorem X10_fallback_keywords (u ct ct' : string) :
  looksLikeVideo u ct
  = existsb (mentions u)
      (if Js.includes ct "octet-stream"
       then ["video"; "media"; "stream"; "play"; "watch"]
       else ["video"; "media"; "stream"; "play"; "watch"; "clip"; "movie"]) /\
  (Js.includes ct "octet-stream" = true ->
   looksLikeVideo u ct = true -> looksLikeVideo u ct' = true).
Proof.
  split; [apply looksLikeVideo_keywords|].
  intros Hct Hlooks. rewrite looksLikeVideo_keywords, Hct in Hlooks.
  rewrite looksLikeVideo_keywords.
  destruct (Js.includes ct' "octet-stream"); [exact Hlooks|].
  cbn [existsb] in *.
  repeat match goal with
         | H : context [mentions u ?kw] |- _ => destruct (mentions u kw)
         end; try reflexivity; discriminate Hlooks.
Qed.

Lemma X10_fallback_keywords_witness :
  looksLikeVideo "https://example.com/Watch/42" "text/html" = true.
Proof.
  apply (proj2 (X10_fallback_keywords "https://example.com/Watch/42"
                  "application/octet-stream" "text/html"));
    reflexivity.
Defined.

Lemma detectStreamTypeFromUrl_lower u :
  VideoDetector.detectStreamTypeFromUrl u
  = if mentions u ".m3u8" then hls
    else if mentions u ".mpd" then dash
    else if mentions u ".mp4" then mp4
    else if mentions u ".webm" then webm
    else if mentions u ".flv" then flv
    else unknown.
Proof.
  unfold VideoDetector.detectStreamTypeFromUrl, mentions.
  rewrite !test_lit_lower by reflexivity. reflexivity.
Qed.

Lemma detectStreamType_no_mime u :
  detectStreamType u ""
  = if mentions u ".m3u8" then hls
    else if mentions u ".mpd" then dash
    else if mentions u ".mp4" || mentions u ".m4v" then mp4
    else if mentions u ".webm" then webm
    else if mentions u ".flv" then flv
    else if mentions u ".ts" || mentions u ".m4s" then hls
    else unknown.
Proof.
  unfold detectStreamType, mentions. cbn [Js.toLowerCase].
  rewrite !includes_empty. cbn [String.prefix]. rewrite !orb_false_r. reflexivity.
Qed.

(** X11: the resolver of the DOM scan and the resolver of the network
    detector, given no content type, name the same type for every URL
    that contains none of [.m4v], [.ts], [.m4s]; and whenever the DOM
    resolver says [hls], [dash] or [mp4], the network resolver says the
    same.  (They part on the three extensions: [.m4v] is [mp4] and a
    segment is [hls] for the network detector only.) *)
Theorem X11_resolvers_agree (u : string) :
  (mentions u ".m4v" = false -> mentions u ".ts" = false ->
   mentions u ".m4s" = false ->
   VideoDetector.detectStreamTypeFromUrl u = detectStreamType u "") /\
  (In (VideoDetector.detectStreamTypeFromUrl u) [hls; dash; mp4] ->
   detectStreamType u "" = VideoDetector.detectStreamTypeFromUrl u).
Proof.
  rewrite detectStreamTypeFromUrl_lower, detectStreamType_no_mime. split.
  - intros -> -> ->. rewrite orb_false_r. reflexivity.
  - destruct (mentions u ".m3u8"); [reflexivity|].
    destruct (mentions u ".mpd"); [reflexivity|].
    destruct (mentions u ".mp4"); [reflexivity|].
    destruct (mentions u ".webm"), (mentions u ".flv"); simpl;
      intros [H | [H | [H | []]]]; discriminate H.
Qed.

Lemma X11_resolvers_agree_witness :
  VideoDetector.detectStreamTypeFromUrl "https://cdn.example.com/Clip.WEBM?x=1"
  = detectStreamType "https://cdn.example.com/Clip.WEBM?x=1" "".
Proof.
  apply (proj1 (X11_resolvers_agree "https://cdn.example.com/Clip.WEBM?x=1"));
    reflexivity.
Defined.

End Keywords.

(* ===================================================================== *)
(** * Capturing groups do not change what matches *)
(* ===================================================================== *)

Section Groups.
Import Regex Types StreamDetector.

(** The pattern without its capturing groups. *)
Fixpoint erase (r : re) : re :=
  match r with
  | Grp r1 => erase r1
  | Seq r1 r2 => Seq (erase r1) (erase r2)
  | Alt r1 r2 => Alt (erase r1) (erase r2)
  | Eps | Chr _ | Cls _ | Rep _ _ _ | Eos => r
  end.

Lemma rep_succeeds {R1 R2} t s :
  forall lo hi (k1 : string -> option R1) (k2 : string -> option R2),
    (forall s', succeeds (k1 s') = succeeds (k2 s')) ->
    succeeds (rep t lo hi s k1) = succeeds (rep t lo hi s k2).
Proof.
  induction s as [|a s IH]; intros lo hi k1 k2 Hk; cbn [rep].
  - destruct lo; [apply Hk | reflexivity].
  - destruct (t a && _).
    + specialize (IH (Nat.pred lo) (Nat.pred <$> hi) k1 k2 Hk).
      destruct (rep t (Nat.pred lo) (Nat.pred <$> hi) s k1),
               (rep t (Nat.pred lo) (Nat.pred <$> hi) s k2);
        try discriminate IH; try reflexivity.
      destruct lo; [apply Hk | reflexivity].
    + destruct lo; [apply Hk | reflexivity].
Qed.

Lemma run_succeeds_erase {R1 R2} ci r :
  forall s cap1 cap2 (k1 : string -> option string -> option R1)
         (k2 : string -> option string -> option R2),
    (forall s' c1 c2, succeeds (k1 s' c1) = succeeds (k2 s' c2)) ->
    succeeds (run ci r s cap1 k1) = succeeds (run ci (erase r) s cap2 k2).
Proof.
  induction r as [|c|c|c lo hi|r1 IH1 r2 IH2|r1 IH1 r2 IH2|r1 IH1|];
    intros s cap1 cap2 k1 k2 Hk; cbn [run erase].
  - apply Hk.
  - destruct s as [|a s]; [reflexivity|]. destruct (char_eq ci a c); [apply Hk|reflexivity].
  - destruct s as [|a s]; [reflexivity|]. destruct (cls_test ci c a); [apply Hk|reflexivity].
  - apply rep_succeeds. intros s'. apply Hk.
  - apply IH1. intros s' c1 c2. apply IH2, Hk.
  - specialize (IH1 s cap1 cap2 k1 k2 Hk). specialize (IH2 s cap1 cap2 k1 k2 Hk).
    destruct (run ci r1 s cap1 k1), (run ci (erase r1) s cap2 k2);
      try discriminate IH1; try reflexivity. exact IH2.
  - apply IH1. intros s' c1 c2. apply Hk.
  - destruct s; [apply Hk | reflexivity].
Qed.

Lemma test_erase ci r s : test ci r s = test ci (erase r) s.
Proof.
  assert (Hhere : forall s0, succeeds (match_here ci r s0)
                             = succeeds (match_here ci (erase r) s0)).
  { intros s0. unfold match_here. apply run_succeeds_erase. reflexivity. }
  induction s as [|a s IH].
  - rewrite !test_empty. apply Hhere.
  - rewrite !test_step, Hhere, IH. reflexivity.
Qed.

(** X12: the third pattern of [detectQuality], the one that would
    capture the height of a [WxH] token, matches exactly the URLs the
    second pattern matches, and the second is tried first: the height
    never becomes the label, and dropping the third pattern changes no
    result. *)
Theorem X12_height_pattern_is_dead (u : string) :
  test true q_height u = test true q_width u /\
  detectQuality u
  = detectQuality_from [q_progressive; q_width; q_quality; q_itag; q_res; q_token] u.
Proof.
  assert (Hsame : test true q_height u = test true q_width u).
  { rewrite (test_erase true q_height), (test_erase true q_width). reflexivity. }
  split; [exact Hsame|].
  unfold detectQuality, quality_patterns. cbn [detectQuality_from].
  destruct (exec true q_progressive u); [reflexivity|].
  unfold test in Hsame.
  destruct (exec true q_width u); [reflexivity|].
  destruct (exec true q_height u); [discriminate Hsame | reflexivity].
Qed.

End Groups.

(* ===================================================================== *)
(** * The DOM scan: deduplication *)
(* ===================================================================== *)

Section Deduplication.
Import Regex Types Types.Video VideoDetector.

(** [deduplicateVideos] as a recursion over the list, from a set of keys
    already seen. *)
Fixpoint dedup_from (seen : gset string) (videos : list VideoInfo) : list VideoInfo :=
  match videos with
  | [] => []
  | video :: rest =>
      if bool_decide (dedup_key video ∈ seen) then dedup_from seen rest
      else video :: dedup_from ({[dedup_key video]} ∪ seen) rest
  end.

Lemma deduplicate_fold videos :
  forall kept seen,
    fst (fold_left
           (fun '(kept, seen) video =>
              let key := dedup_key video in
              if bool_decide (key ∈ (seen : gset string)) then (kept, seen)
              else (kept ++ [video], {[key]} ∪ seen))
           videos (kept, seen))
    = kept ++ dedup_from seen videos.
Proof.
  induction videos as [|video rest IH]; intros kept seen; simpl.
  - symmetry. apply app_nil_r.
  - destruct (bool_decide (dedup_key video ∈ seen)).
    + apply IH.
    + rewrite IH, <- app_assoc. reflexivity.
Qed.

Lemma deduplicateVideos_from videos : deduplicateVideos videos = dedup_from ∅ videos.
Proof. unfold deduplicateVideos. rewrite deduplicate_fold. reflexivity. Qed.

Lemma dedup_from_sublist videos :
  forall seen, dedup_from seen videos `sublist_of` videos.
Proof.
  induction videos as [|video rest IH]; intros seen; simpl; [constructor|].
  destruct (bool_decide _); [apply sublist_cons | apply sublist_skip]; apply IH.
Qed.

Lemma dedup_from_fresh videos :
  forall seen video,
    video ∈ dedup_from seen videos -> dedup_key video ∉ seen.
Proof.
  induction videos as [|v rest IH]; intros seen video; simpl.
  - intros H. inversion H.
  - destruct (bool_decide (dedup_key v ∈ seen)) eqn:Hseen; [apply IH|].
    apply bool_decide_eq_false in Hseen.
    intros Hin. apply elem_of_cons in Hin as [-> | Hin]; [exact Hseen|].
    apply IH in Hin. set_solver.
Qed.

Lemma dedup_from_distinct videos :
  forall seen, NoDup (dedup_key <$> dedup_from seen videos).
Proof.
  induction videos as [|v rest IH]; intros seen; simpl; [constructor|].
  destruct (bool_decide (dedup_key v ∈ seen)); [apply IH|].
  simpl. apply NoDup_cons. split; [|apply IH].
  intros Hin. apply list_elem_of_fmap in Hin as (w & Hkey & Hw).
  apply dedup_from_fresh in Hw. set_solver.
Qed.

Lemma dedup_from_covers videos :
  forall seen video,
    video ∈ videos ->
    dedup_key video ∈ seen \/
    dedup_key video ∈ dedup_key <$> dedup_from seen videos.
Proof.
  induction videos as [|v rest IH]; intros seen video Hin; [inversion Hin|].
  simpl. apply elem_of_cons in Hin as [-> | Hin].
  - destruct (bool_decide (dedup_key v ∈ seen)) eqn:Hseen.
    + left. apply bool_decide_eq_true in Hseen. exact Hseen.
    + right. simpl. apply list_elem_of_here.
  - destruct (bool_decide (dedup_key v ∈ seen)); [apply IH, Hin|].
    destruct (IH ({[dedup_key v]} ∪ seen) video Hin) as [Hseen | Hout].
    + apply elem_of_union in Hseen as [Hv | Hseen]; [|left; exact Hseen].
      apply elem_of_singleton in Hv. right. simpl. rewrite Hv.
      apply list_elem_of_here.
    + right. simpl. apply list_elem_of_further, Hout.
Qed.

Lemma dedup_from_stable videos :
  forall seen,
    NoDup (dedup_key <$> videos) ->
    (forall video, video ∈ videos -> dedup_key video ∉ seen) ->
    dedup_from seen videos = videos.
Proof.
  induction videos as [|v rest IH]; intros seen Hnd Hfresh; [reflexivity|].
  simpl in *. apply NoDup_cons in Hnd as [Hv Hnd].
  rewrite bool_decide_eq_false_2 by apply Hfresh, list_elem_of_here.
  f_equal. apply IH; [exact Hnd|].
  intros video Hin Hseen. apply elem_of_union in Hseen as [Hsame | Hseen].
  - apply elem_of_singleton in Hsame. apply Hv. rewrite <- Hsame.
    apply list_elem_of_fmap. exists video. split; [reflexivity | exact Hin].
  - apply (Hfresh video); [apply list_elem_of_further, Hin | exact Hseen].
Qed.

(** X13: [deduplicateVideos] returns a sub-list of its input, in the
    input's order, with pairwise distinct keys; every key of the input is
    the key of an entry kept; the first entry of the input is the first
    entry kept; and applying it again changes nothing. *)
Theorem X13_deduplicate (videos : list VideoInfo) :
  let kept := deduplicateVideos videos in
  kept `sublist_of` videos /\
  NoDup (dedup_key <$> kept) /\
  (forall video, video ∈ videos -> dedup_key video ∈ dedup_key <$> kept) /\
  head kept = head videos /\
  deduplicateVideos kept = kept.
Proof.
  simpl. rewrite !deduplicateVideos_from.
  split; [apply dedup_from_sublist|]. split; [apply dedup_from_distinct|].
  split; [|split].
  - intros video Hin. destruct (dedup_from_covers videos ∅ video Hin) as [H|H];
      [set_solver | exact H].
  - destruct videos as [|v rest]; [reflexivity|]. simpl.
    rewrite bool_decide_eq_false_2 by apply not_elem_of_empty. reflexivity.
  - apply dedup_from_stable.
    + apply dedup_from_distinct.
    + intros video _. apply not_elem_of_empty.
Qed.

End Deduplication.

(* ===================================================================== *)
(** * The DOM scan: what each strategy produces *)
(* ===================================================================== *)

Section Producers.
Import Regex Types Types.Video VideoDetector.

Variable clock : nat -> Z.
Variable Number : string -> float.

Lemma fold_left_invariant {A B} (f : A -> B -> A) (P : A -> Prop) (l : list B) :
  (forall a b, b ∈ l -> P a -> P (f a b)) ->
  forall a, P a -> P (fold_left f l a).
Proof.
  induction l as [|b l IH]; intros Hf a Ha; simpl; [exact Ha|].
  apply IH.
  - intros a' b' Hb'. apply Hf, list_elem_of_further, Hb'.
  - apply Hf; [apply list_elem_of_here | exact Ha].
Qed.

Lemma fold_left_length {A B} (f : list A -> B -> list A) (l : list B) :
  (forall a b, (length (f a b) <= S (length a))%nat) ->
  forall a, (length (fold_left f l a) <= length a + length l)%nat.
Proof.
  intros Hf. induction l as [|b l IH]; intros a; simpl; [lia|].
  specialize (IH (f a b)). specialize (Hf a b). lia.
Qed.

(** Induction over a node and the nodes below it. *)
Fixpoint Node_forall_ind (P : Node -> Prop)
    (Hvideo : forall v children, Forall P children -> P (VideoNode v children))
    (Hsource : forall s, P (SourceNode s))
    (Hiframe : forall f, P (IframeNode f))
    (Hother : forall children, Forall P children -> P (OtherNode children))
    (n : Node) : P n :=
  match n with
  | VideoNode v children =>
      Hvideo v children
        ((fix below (l : list Node) : Forall P l :=
            match l with
            | [] => @List.Forall_nil Node P
            | x :: l' =>
                @List.Forall_cons Node P x l'
                  (Node_forall_ind P Hvideo Hsource Hiframe Hother x) (below l')
            end) children)
  | SourceNode s => Hsource s
  | IframeNode f => Hiframe f
  | OtherNode children =>
      Hother children
        ((fix below (l : list Node) : Forall P l :=
            match l with
            | [] => @List.Forall_nil Node P
            | x :: l' =>
                @List.Forall_cons Node P x l'
                  (Node_forall_ind P Hvideo Hsource Hiframe Hother x) (below l')
            end) children)
  end.

Lemma flat_map_forall {A B} (f : A -> list B) (Q : B -> Prop) (l : list A) :
  Forall (fun a => forall x, x ∈ f a -> Q x) l ->
  forall x, x ∈ flat_map f l -> Q x.
Proof.
  induction 1 as [|a l Ha _ IH]; intros x Hin; simpl in Hin; [inversion Hin|].
  apply elem_of_app in Hin as [Hin|Hin]; [apply Ha, Hin | apply IH, Hin].
Qed.

(** Below a [<video>], every [<source>] is flagged as having one for
    ancestor. *)
Lemma sources_of_true_flag n x : x ∈ sources_of true n -> x.2 = true.
Proof.
  revert x. induction n as [v children IH|s|f|children IH] using Node_forall_ind;
    intros x Hin; simpl in Hin.
  - exact (flat_map_forall _ _ _ IH x Hin).
  - apply list_elem_of_singleton in Hin. subst x. reflexivity.
  - inversion Hin.
  - exact (flat_map_forall _ _ _ IH x Hin).
Qed.

Lemma sources_in_video children x :
  x ∈ flat_map (sources_of true) children -> x.2 = true.
Proof.
  intros Hin. revert x Hin.
  apply (flat_map_forall (sources_of true) (fun y => y.2 = true)).
  apply Forall_forall. intros n _ y. apply sources_of_true_flag.
Qed.

(** A record made from a URL found in markup: the URL is not empty and
    not a [blob:] URL, the type is the one the URL resolves to, and no
    size or quality is known. *)
Definition shareable (s : DetectedStream) : Prop :=
  Js.truthy (Types.url s) = true /\
  is_blob (Types.url s) = false /\
  type s = detectStreamTypeFromUrl (Types.url s) /\
  size s = None /\ quality s = None.

Lemma extractVideoSources_facts (calls : nat) (video : VideoElement)
    (children : list Node) :
  let out := extractVideoSources clock calls video children in
  let sources := flat_map (sources_of true) children in
  Forall shareable out /\
  (forall s, s ∈ out ->
     Types.url s = video_src video \/
     exists source, (source, true) ∈ sources /\ Types.url s = source_src source) /\
  (forall (i : nat) s, out !! i = Some s -> timestamp s = clock (calls + i)%nat) /\
  (length out <= 1 + length sources)%nat.
Proof.
  intros out sources.
  assert (Hflag : forall x, x ∈ sources -> x.2 = true)
    by apply sources_in_video.
  set (P := fun acc : list DetectedStream =>
              Forall shareable acc /\
              (forall s, s ∈ acc ->
                 Types.url s = video_src video \/
                 exists source, (source, true) ∈ sources /\
                                Types.url s = source_src source) /\
              (forall (i : nat) s, acc !! i = Some s ->
                                   timestamp s = clock (calls + i)%nat)).
  assert (HP : P out).
  { unfold out, extractVideoSources. fold sources.
    apply (fold_left_invariant _ P).
    - intros acc [source flag] Hin (Hok & Horigin & Hclock).
      destruct (Js.truthy (source_src source) && negb (is_blob (source_src source)))
        eqn:Hsrc; [|repeat split; assumption].
      apply andb_true_iff in Hsrc as [Ht Hb]. apply negb_true_iff in Hb.
      split; [|split].
      + apply Forall_app. split; [exact Hok|]. apply Forall_singleton.
        repeat split; assumption.
      + intros s Hs. apply elem_of_app in Hs as [Hs|Hs]; [apply Horigin, Hs|].
        apply list_elem_of_singleton in Hs. subst s. right. exists source.
        split; [|reflexivity].
        pose proof (Hflag _ Hin) as Hf. simpl in Hf. subst flag. exact Hin.
      + intros i s Hi. destruct (decide (i < length acc)%nat) as [Hlt|Hge].
        * rewrite lookup_app_l in Hi by exact Hlt. apply Hclock, Hi.
        * rewrite lookup_app_r in Hi by lia.
          destruct (i - length acc)%nat as [|n] eqn:E; simpl in Hi.
          -- injection Hi as <-. simpl. f_equal. lia.
          -- rewrite lookup_nil in Hi. discriminate Hi.
    - destruct (Js.truthy (video_src video) && negb (is_blob (video_src video)))
        eqn:Hsrc.
      + apply andb_true_iff in Hsrc as [Ht Hb]. apply negb_true_iff in Hb.
        split; [|split].
        * apply Forall_singleton. repeat split; assumption.
        * intros s Hs. apply list_elem_of_singleton in Hs. subst s. left. reflexivity.
        * intros [|i] s Hi; simpl in Hi; [|rewrite lookup_nil in Hi; discriminate Hi].
          injection Hi as <-. simpl. f_equal. lia.
      + split; [constructor|]. split.
        * intros s Hs. inversion Hs.
        * intros i s Hi. rewrite lookup_nil in Hi. discriminate Hi. }
  destruct HP as (Hok & Horigin & Hclock).
  split; [exact Hok|]. split; [exact Horigin|]. split; [exact Hclock|].
  unfold out, extractVideoSources. fold sources.
  etransitivity; [apply fold_left_length|].
  - intros acc [source flag]. destruct (_ && _); [|lia].
    rewrite length_app. simpl. lia.
  - destruct (_ && _); simpl; lia.
Qed.

(** X14: the streams [extractVideoSources] lists for a [<video>] never
    hold an empty or a [blob:] URL; each URL is the [src] of the element
    or of one of its [<source>] descendants and is typed by
    [detectStreamTypeFromUrl]; there is at most one record more than
    there are sources; and the records carry successive readings of the
    clock. *)
Theorem X14_extracted_sources (calls : nat) (video : VideoElement)
    (children : list Node) :
  let out := extractVideoSources clock calls video children in
  let sources := flat_map (sources_of true) children in
  Forall shareable out /\
  (forall s, s ∈ out ->
     Types.url s = video_src video \/
     exists source, (source, true) ∈ sources /\ Types.url s = source_src source) /\
  (forall (i : nat) s, out !! i = Some s -> timestamp s = clock (calls + i)%nat) /\
  (length out <= 1 + length sources)%nat.
Proof. apply extractVideoSources_facts. Qed.

(** What [detectAllHTML5Videos] guarantees of a record. *)
Definition html5_record (doc : Document) (info : VideoInfo) : Prop :=
  platform info = html5 /\
  videoId info = None /\
  url info = location_href doc /\
  (exists t, title info = Some t /\ Js.truthy t = true) /\
  (forall u, sourceUrl info = Some u -> is_blob u = false) /\
  (exists l, streams info = Some l /\ Forall shareable l).

Lemma html5_info_record doc calls index video children info :
  html5_info clock doc calls index video children = Some info ->
  html5_record doc info.
Proof.
  unfold html5_info. destruct (PrimFloat.ltb _ _); [discriminate|].
  intros [= <-]. unfold html5_record. cbn [platform videoId url title sourceUrl streams].
  split; [reflexivity|]. split; [reflexivity|]. split; [reflexivity|].
  split; [|split].
  - eexists. split; [reflexivity|]. unfold Js.or_else.
    destruct (Js.truthy (extractVideoTitle doc video)) eqn:Ht; [exact Ht | reflexivity].
  - intros u. destruct (is_blob _) eqn:Hb; [discriminate|]. intros [= <-]. exact Hb.
  - eexists. split; [reflexivity|]. apply extractVideoSources_facts.
Qed.

Lemma fold_left_unchanged {A B} (f : A -> B -> A) (l : list B) a :
  (forall a' b, b ∈ l -> f a' b = a') -> fold_left f l a = a.
Proof.
  revert a. induction l as [|b l IH]; intros a Hf; simpl; [reflexivity|].
  rewrite Hf by apply list_elem_of_here. apply IH.
  intros a' b' Hb'. apply Hf, list_elem_of_further, Hb'.
Qed.

Lemma detectAllHTML5Videos_facts (doc : Document) (calls : nat) :
  let videoElements := flat_map videos_of (body doc) in
  let result := detectAllHTML5Videos clock doc calls in
  (forall info, info ∈ result.1 -> html5_record doc info) /\
  (length result.1 <= length videoElements)%nat /\
  ((forall video children, (video, children) ∈ videoElements ->
      PrimFloat.ltb (rect_width video * rect_height video) 10000 = true) ->
   result = ([], calls)).
Proof.
  intros videoElements result. unfold result, detectAllHTML5Videos.
  fold videoElements.
  set (indexed := combine (seq 0 (length videoElements)) videoElements).
  split; [|split].
  - apply (fold_left_invariant _
             (fun acc : list VideoInfo * nat =>
                forall info, info ∈ acc.1 -> html5_record doc info)).
    + intros [videos calls'] [index [video children]] _ Hacc. simpl in *.
      destruct (html5_info clock doc calls' index video children) as [info|] eqn:Hinfo;
        [|exact Hacc].
      simpl. intros info' Hin. apply elem_of_app in Hin as [Hin|Hin]; [apply Hacc, Hin|].
      apply list_elem_of_singleton in Hin. subst info'.
      exact (html5_info_record _ _ _ _ _ _ Hinfo).
    + intros info Hin. inversion Hin.
  - assert (Hlen : forall l acc,
              (length (fold_left
                 (fun '(videos, calls') '(index, (video, children)) =>
                    match html5_info clock doc calls' index video children with
                    | Some info => (videos ++ [info], (calls' + streams_count info)%nat)
                    | None => (videos, calls')
                    end) l acc).1 <= length acc.1 + length l)%nat).
    { induction l as [|[index [video children]] l IH]; intros [videos calls']; simpl;
        [lia|].
      destruct (html5_info clock doc calls' index video children).
      - etransitivity; [apply IH|]. simpl. rewrite length_app. simpl. lia.
      - etransitivity; [apply IH|]. simpl. lia. }
    etransitivity; [apply Hlen|]. simpl. unfold indexed.
    rewrite length_combine, length_seq. lia.
  - intros Hsmall. apply fold_left_unchanged.
    intros [videos calls'] [index [video children]] Hin.
    assert (Hv : (video, children) ∈ videoElements).
    { apply list_elem_of_In in Hin. apply in_combine_r in Hin.
      apply list_elem_of_In, Hin. }
    unfold html5_info. rewrite (Hsmall _ _ Hv). reflexivity.
Qed.

(** X15: every record of [detectAllHTML5Videos] is an [html5] record of
    the current page without a platform id, with a title that is not
    empty, whose direct URL, when present, is not a [blob:] URL and whose
    streams are shareable; there are no more records than [<video>]
    elements, and none, with no clock reading taken, when every element
    is below the area threshold. *)
Theorem X15_html5_records (doc : Document) (calls : nat) :
  let videoElements := flat_map videos_of (body doc) in
  let result := detectAllHTML5Videos clock doc calls in
  (forall info, info ∈ result.1 -> html5_record doc info) /\
  (length result.1 <= length videoElements)%nat /\
  ((forall video children, (video, children) ∈ videoElements ->
      PrimFloat.ltb (rect_width video * rect_height video) 10000 = true) ->
   result = ([], calls)).
Proof. apply detectAllHTML5Videos_facts. Qed.

Lemma prefix_lower p s :
  String.prefix p s = true ->
  String.prefix (Js.toLowerCase p) (Js.toLowerCase s) = true.
Proof.
  revert s. induction p as [|c p IH]; intros s H; [apply prefix_empty_l|].
  destruct s as [|a s]; [discriminate H|].
  rewrite prefix_cons in H. apply andb_true_iff in H as [Hc Hp].
  apply Ascii.eqb_eq in Hc. subst a. cbn [Js.toLowerCase].
  rewrite prefix_cons, Ascii.eqb_refl. apply IH, Hp.
Qed.

Lemma includes_lower s p :
  Js.includes s p = true ->
  Js.includes (Js.toLowerCase s) (Js.toLowerCase p) = true.
Proof.
  induction s as [|a s IH]; cbn [Js.includes Js.toLowerCase].
  - intros H. destruct p; [reflexivity | discriminate H].
  - intros H. apply orb_true_iff in H as [H|H]; apply orb_true_iff.
    + left. apply (prefix_lower p (String a s)), H.
    + right. apply IH, H.
Qed.

(** What [detectSourceTags] guarantees of a record made from the [src]
    attribute of a [<source>] outside every [<video>]. *)
Definition orphan_record (doc : Document) (info : VideoInfo) : Prop :=
  platform info = html5 /\
  videoId info = None /\
  title info = Some (document_title doc) /\
  url info = location_href doc /\
  exists source src at_,
    (source, false) ∈ flat_map (sources_of false) (body doc) /\
    source_getAttribute_src source = Some src /\
    source_selected source = true /\
    sourceUrl info = Some src /\
    streams info = Some [markup_stream clock src None at_] /\
    In (detectStreamTypeFromUrl src) [hls; dash; mp4; webm].

Lemma selected_type source src :
  source_getAttribute_src source = Some src ->
  source_selected source = true ->
  In (detectStreamTypeFromUrl src) [hls; dash; mp4; webm].
Proof using Type.
  clear clock Number. unfold source_selected. intros -> Hsel.
  rewrite detectStreamTypeFromUrl_lower. unfold mentions.
  destruct (Js.includes (Js.toLowerCase src) ".m3u8") eqn:H1; [simpl; tauto|].
  destruct (Js.includes (Js.toLowerCase src) ".mpd") eqn:H2; [simpl; tauto|].
  destruct (Js.includes (Js.toLowerCase src) ".mp4") eqn:H3; [simpl; tauto|].
  destruct (Js.includes (Js.toLowerCase src) ".webm") eqn:H4; [simpl; tauto|].
  exfalso.
  apply orb_true_iff in Hsel as [Hsel|Hsel];
    [apply orb_true_iff in Hsel as [Hsel|Hsel]|];
    apply includes_lower in Hsel.
  - change (Js.toLowerCase ".mp4") with ".mp4" in Hsel. congruence.
  - change (Js.toLowerCase ".webm") with ".webm" in Hsel. congruence.
  - change (Js.toLowerCase ".m3u8") with ".m3u8" in Hsel. congruence.
Qed.

Lemma detectSourceTags_records (doc : Document) (calls : nat)
    (info : VideoInfo) :
  info ∈ detectSourceTags clock doc calls -> orphan_record doc info.
Proof using clock.
  unfold detectSourceTags.
  set (all := flat_map (sources_of false) (body doc)).
  revert info.
  apply (fold_left_invariant _
           (fun acc : list VideoInfo => forall info, info ∈ acc -> orphan_record doc info)).
  - intros acc [source inVideo] Hin Hacc.
    apply list_elem_of_In, filter_In in Hin as [Hall Hsel].
    destruct inVideo; [exact Hacc|].
    destruct (source_getAttribute_src source) as [src|] eqn:Hattr; [|exact Hacc].
    destruct (Js.truthy src) eqn:Ht; [|exact Hacc].
    intros info Hin. apply elem_of_app in Hin as [Hin|Hin]; [apply Hacc, Hin|].
    apply list_elem_of_singleton in Hin. subst info.
    unfold orphan_record. cbn [platform videoId title url sourceUrl streams].
    repeat (split; [reflexivity|]).
    exists source, src, (calls + length acc)%nat.
    split; [apply list_elem_of_In, Hall|]. split; [exact Hattr|].
    split; [exact Hsel|]. split; [reflexivity|]. split; [reflexivity|].
    exact (selected_type _ _ Hattr Hsel).
  - intros info Hin. inversion Hin.
Qed.

(** X16: every record of [detectSourceTags] comes from a [<source>] that
    has no [<video>] ancestor and whose [src] attribute contains [.mp4],
    [.webm] or [.m3u8]; it is an [html5] record titled with the document
    title, its direct URL is that attribute, and its single stream has
    that URL and a type among [hls], [dash], [mp4], [webm], never
    [unknown]. *)
Theorem X16_orphan_source_records (doc : Document) (calls : nat)
    (info : VideoInfo) :
  info ∈ detectSourceTags clock doc calls -> orphan_record doc info.
Proof using clock. apply detectSourceTags_records. Qed.

Lemma detectYouTube_record doc info :
  detectYouTube Number doc = Some info ->
  platform info = youtube /\ sourceUrl info = None /\ streams info = None.
Proof.
  unfold detectYouTube. destruct (_ && _); [discriminate|].
  destruct (extractYouTubeVideoId _) as [id|]; [|discriminate].
  destruct (negb (Js.truthy id)); [discriminate|].
  intros [= <-]. repeat split.
Qed.

Lemma detectVimeo_record doc info :
  detectVimeo doc = Some info ->
  platform info = vimeo /\ sourceUrl info = None /\ streams info = None.
Proof.
  unfold detectVimeo. destruct (negb _); [discriminate|].
  destruct (exec _ _ _); [|discriminate].
  intros [= <-]. repeat split.
Qed.

Lemma iframe_info_record iframe info :
  iframe_info iframe = Some info ->
  sourceUrl info = None /\ streams info = None /\
  (platform info = html5 -> videoId info = None) /\
  (platform info = youtube \/ platform info = vimeo \/ platform info = html5).
Proof.
  unfold iframe_info.
  destruct (exec false _ _) as [ytMatch|].
  - intros [= <-]. cbn. repeat split; [discriminate | tauto].
  - destruct (exec false _ _) as [vimeoMatch|].
    + intros [= <-]. cbn. repeat split; [discriminate | tauto].
    + destruct (_ || _); [|discriminate].
      intros [= <-]. cbn. repeat split; tauto.
Qed.

Lemma detectAll_origin doc info :
  info ∈ detectAll clock Number doc ->
  detectYouTube Number doc = Some info \/
  detectVimeo doc = Some info \/
  (exists calls, info ∈ (detectAllHTML5Videos clock doc calls).1) \/
  (exists iframe, iframe_info iframe = Some info) \/
  (exists calls, info ∈ detectSourceTags clock doc calls).
Proof.
  unfold detectAll.
  destruct (detectAllHTML5Videos clock doc 0) as [html5Videos calls] eqn:Hhtml5.
  rewrite deduplicateVideos_from. intros Hin.
  apply (fun H => elem_of_sublist _ _ _ H (dedup_from_sublist _ _)) in Hin.
  apply elem_of_app in Hin as [Hin|Hin].
  { left. destruct (detectYouTube Number doc); simpl in Hin;
      [apply list_elem_of_singleton in Hin; congruence | inversion Hin]. }
  apply elem_of_app in Hin as [Hin|Hin].
  { right. left. destruct (detectVimeo doc); simpl in Hin;
      [apply list_elem_of_singleton in Hin; congruence | inversion Hin]. }
  apply elem_of_app in Hin as [Hin|Hin].
  { right. right. left. exists 0%nat. rewrite Hhtml5. exact Hin. }
  apply elem_of_app in Hin as [Hin|Hin].
  { right. right. right. left. unfold detectIframeVideos in Hin.
    apply list_elem_of_omap in Hin as (iframe & _ & Hinfo). eauto. }
  right. right. right. right. eauto.
Qed.

(** X17: [detectAll] returns candidates with pairwise distinct keys, of
    platform [youtube], [vimeo] or [html5] only; a candidate of a
    platform other than [html5] carries neither a direct URL nor
    streams, and an [html5] candidate carries no platform id; and
    [detect] is the first candidate of [detectAll]. *)
Theorem X17_candidates (doc : Document) :
  let candidates := detectAll clock Number doc in
  NoDup (dedup_key <$> candidates) /\
  (forall info, info ∈ candidates ->
     (platform info = youtube \/ platform info = vimeo \/ platform info = html5) /\
     (platform info <> html5 -> sourceUrl info = None /\ streams info = None) /\
     (platform info = html5 -> videoId info = None)) /\
  detect clock Number doc = head candidates.
Proof.
  simpl. split; [|split; [|reflexivity]].
  - unfold detectAll. destruct (detectAllHTML5Videos clock doc 0).
    rewrite deduplicateVideos_from. apply dedup_from_distinct.
  - intros info Hin.
    destruct (detectAll_origin doc info Hin)
      as [H | [H | [[calls H] | [[iframe H] | [calls H]]]]].
    + apply detectYouTube_record in H as (Hp & Hs & Hst). rewrite Hp.
      split; [tauto|]. split; [auto | discriminate].
    + apply detectVimeo_record in H as (Hp & Hs & Hst). rewrite Hp.
      split; [tauto|]. split; [auto | discriminate].
    + apply (proj1 (detectAllHTML5Videos_facts doc calls)) in H.
      destruct H as (Hp & Hid & _). rewrite Hp.
      split; [tauto|]. split; [congruence | auto].
    + apply iframe_info_record in H as (Hs & Hst & Hid & Hp). auto.
    + apply detectSourceTags_records in H. destruct H as (Hp & Hid & _). rewrite Hp.
      split; [tauto|]. split; [congruence | auto].
Qed.

End Producers.

(** A page whose only player is a 48 by 48 icon, and a page with one
    [<source>] outside every [<video>]. *)
Definition icon_document : VideoDetector.Document :=
  {| VideoDetector.location_href := "https://example.com/";
     VideoDetector.document_title := "Icons";
     VideoDetector.querySelector_text := fun _ => None;
     VideoDetector.body :=
       [VideoDetector.VideoNode
          {| VideoDetector.video_src := "a.mp4";
             VideoDetector.video_currentSrc := "a.mp4";
             VideoDetector.rect_width := 48;
             VideoDetector.rect_height := 48;
             VideoDetector.video_title := "";
             VideoDetector.video_aria_label := None;
             VideoDetector.video_heading := None;
             VideoDetector.video_duration := 3 |} []] |}.

Definition orphan_document : VideoDetector.Document :=
  {| VideoDetector.location_href := "https://example.com/clips";
     VideoDetector.document_title := "Clips";
     VideoDetector.querySelector_text := fun _ => None;
     VideoDetector.body :=
       [VideoDetector.OtherNode
          [VideoDetector.SourceNode
             {| VideoDetector.source_getAttribute_src := Some "/media/Trailer.mp4";
                VideoDetector.source_src := "https://example.com/media/Trailer.mp4";
                VideoDetector.source_type := "" |}]] |}.

Lemma X14_extracted_sources_witness :
  Types.timestamp
    {| Types.url := "b.webm"; Types.type := Types.webm; Types.size := None;
       Types.quality := None; Types.contentType := Some "video/webm";
       Types.timestamp := 6 |}
  = Z.of_nat (5 + 1).
Proof.
  apply (proj1 (proj2 (proj2 (X14_extracted_sources Z.of_nat 5 sample_video
                                [VideoDetector.SourceNode sample_source]))) 1%nat).
  reflexivity.
Defined.

Lemma X15_html5_records_witness :
  VideoDetector.detectAllHTML5Videos Z.of_nat icon_document 0 = ([], 0%nat).
Proof.
  apply (proj2 (proj2 (X15_html5_records Z.of_nat icon_document 0))).
  intros video children Hin. apply list_elem_of_singleton in Hin.
  injection Hin as -> ->. reflexivity.
Defined.

Lemma X16_orphan_source_records_witness :
  orphan_record Z.of_nat orphan_document
    {| Types.Video.platform := Types.html5;
       Types.Video.videoId := None;
       Types.Video.title := Some "Clips";
       Types.Video.duration := None;
       Types.Video.url := "https://example.com/clips";
       Types.Video.thumbnailUrl := None;
       Types.Video.streams :=
         Some [markup_stream Z.of_nat "/media/Trailer.mp4" None 0];
       Types.Video.sourceUrl := Some "/media/Trailer.mp4" |}.
Proof.
  apply (X16_orphan_source_records Z.of_nat orphan_document 0).
  vm_compute. apply list_elem_of_here.
Defined.

(* ===================================================================== *)
(** * The DOM scan: YouTube video ids *)
(* ===================================================================== *)

Section YouTubeIds.
Import Regex Types Types.Video VideoDetector.

(** A character a video id may hold: anything but [&], line feed, [?]
    and [#]. *)
Definition id_char (c : ascii) : bool :=
  cls_test false (CNoneOf ["&"; "010"; "?"; "#"]%char) c.

Fixpoint id_string (s : string) : bool :=
  match s with
  | EmptyString => true
  | String c s' => id_char c && id_string s'
  end.

(** What follows the id: nothing, or a character that ends it. *)
Definition ends_id (rest : string) : bool :=
  match rest with
  | EmptyString => true
  | String c _ => negb (id_char c)
  end.

Fixpoint without (c : ascii) (s : string) : bool :=
  match s with
  | EmptyString => true
  | String a s' => negb (Ascii.eqb a c) && without c s'
  end.

Lemma append_cons c (s1 s2 : string) :
  (String c s1 ++ s2)%string = String c (s1 ++ s2)%string.
Proof. reflexivity. Qed.

Lemma append_empty (s : string) : ("" ++ s)%string = s.
Proof. reflexivity. Qed.

Lemma length_append (s1 s2 : string) :
  String.length (s1 ++ s2)%string = (String.length s1 + String.length s2)%nat.
Proof. induction s1 as [|c s1 IH]; [reflexivity|]. rewrite append_cons. simpl. lia. Qed.

Lemma substring_append (s1 s2 : string) :
  String.substring 0 (String.length s1) (s1 ++ s2)%string = s1.
Proof.
  induction s1 as [|c s1 IH].
  - rewrite append_empty. destruct s2; reflexivity.
  - rewrite append_cons. simpl. rewrite IH. reflexivity.
Qed.

Lemma prefix_append (p s : string) : String.prefix p (p ++ s)%string = true.
Proof.
  induction p as [|c p IH]; [rewrite append_empty; apply prefix_empty_l|].
  rewrite append_cons, prefix_cons, Ascii.eqb_refl. exact IH.
Qed.

Lemma skip_append (p s : string) : skip (String.length p) (p ++ s)%string = s.
Proof.
  induction p as [|c p IH]; [rewrite append_empty; destruct s; reflexivity|].
  rewrite append_cons. simpl. exact IH.
Qed.

(** A literal pattern without the [i] flag is a prefix test. *)
Lemma run_lit_prefix {R} p :
  forall s cap (k : string -> option string -> option R),
    run false (lit p) s cap k
    = if String.prefix p s then k (skip (String.length p) s) cap else None.
Proof.
  induction p as [|c p IH]; intros s cap k.
  - rewrite prefix_empty_l. destruct s; reflexivity.
  - rewrite run_lit_cons. destruct s as [|a s]; [reflexivity|].
    cbn [run]. rewrite prefix_cons. unfold char_eq.
    destruct (Ascii.eqb a c); [|reflexivity]. rewrite IH. reflexivity.
Qed.

(** The greedy repeat takes the whole id when what follows ends it. *)
Lemma rep_takes_id {R} (id rest : string) (k : string -> option R) r :
  id_string id = true -> ends_id rest = true -> k rest = Some r ->
  forall lo, (lo <= String.length id)%nat ->
    rep id_char lo None (id ++ rest)%string k = Some r.
Proof.
  intros Hid Hrest Hk. induction id as [|c id IH]; intros lo Hlo.
  - rewrite append_empty. simpl in Hlo. assert (lo = 0%nat) as -> by lia.
    destruct rest as [|a rest]; [exact Hk|].
    cbn [rep]. simpl in Hrest. apply negb_true_iff in Hrest. rewrite Hrest. exact Hk.
  - simpl in Hid. apply andb_true_iff in Hid as [Hc Hid].
    rewrite append_cons. cbn [rep]. rewrite Hc. cbn [andb].
    change (Nat.pred <$> None) with (@None nat).
    rewrite (IH Hid) by (simpl in Hlo; lia). reflexivity.
Qed.

Definition yt_id : re := Grp (Rep (CNoneOf ["&"; "010"; "?"; "#"]%char) 1 None).

(** The first pattern of [extractYouTubeVideoId]. *)
Definition yt_watch : re :=
  cat [alt [lit "youtube.com/watch?v="; lit "youtu.be/"; lit "youtube.com/embed/"];
       yt_id].

Definition yt_keys : list string :=
  ["youtube.com/watch?v="; "youtu.be/"; "youtube.com/embed/"].

Lemma yt_id_captures id rest :
  id <> "" -> id_string id = true -> ends_id rest = true ->
  run false yt_id (id ++ rest)%string None (fun _ cap => Some cap) = Some (Some id).
Proof.
  intros Hne Hid Hrest. unfold yt_id. cbn [run].
  apply (rep_takes_id id rest); [exact Hid | exact Hrest | | ].
  - rewrite length_append, Nat.add_sub, substring_append. reflexivity.
  - destruct id; [congruence | simpl; lia].
Qed.

Lemma yt_watch_here key id rest :
  In key yt_keys -> id <> "" -> id_string id = true -> ends_id rest = true ->
  match_here false yt_watch (key ++ id ++ rest)%string = Some (Some id).
Proof.
  intros Hkey Hne Hid Hrest.
  pose proof (yt_id_captures id rest Hne Hid Hrest) as Hcap.
  unfold match_here, yt_watch. cbn [cat alt run].
  destruct Hkey as [<- | [<- | [<- | []]]].
  - rewrite run_lit_prefix, prefix_append, skip_append, Hcap. reflexivity.
  - rewrite (run_lit_prefix "youtube.com/watch?v=").
    replace (String.prefix "youtube.com/watch?v=" ("youtu.be/" ++ id ++ rest)%string)
      with false by reflexivity.
    rewrite run_lit_prefix, prefix_append, skip_append, Hcap. reflexivity.
  - rewrite (run_lit_prefix "youtube.com/watch?v=").
    replace (String.prefix "youtube.com/watch?v="
               ("youtube.com/embed/" ++ id ++ rest)%string)
      with false by reflexivity.
    rewrite (run_lit_prefix "youtu.be/").
    replace (String.prefix "youtu.be/" ("youtube.com/embed/" ++ id ++ rest)%string)
      with false by reflexivity.
    rewrite run_lit_prefix, prefix_append, skip_append, Hcap. reflexivity.
Qed.

Lemma yt_watch_needs_y a s :
  Ascii.eqb a "y" = false -> match_here false yt_watch (String a s) = None.
Proof.
  intros Ha. unfold match_here, yt_watch. cbn [cat alt run].
  rewrite !run_lit_prefix, !prefix_cons, Ha. reflexivity.
Qed.

Lemma exec_yt_watch_skip pre s :
  without "y" pre = true ->
  exec false yt_watch (pre ++ s)%string = exec false yt_watch s.
Proof.
  induction pre as [|a pre IH]; intros Hpre; [reflexivity|].
  simpl in Hpre. apply andb_true_iff in Hpre as [Ha Hpre].
  apply negb_true_iff in Ha.
  rewrite append_cons. cbn [exec]. rewrite (yt_watch_needs_y _ _ Ha). apply IH, Hpre.
Qed.

Lemma includes_append pre s p :
  Js.includes s p = true -> Js.includes (pre ++ s)%string p = true.
Proof.
  intros H. induction pre as [|a pre IH]; [exact H|].
  rewrite append_cons. cbn [Js.includes]. rewrite IH. apply orb_true_r.
Qed.

Lemma includes_prefix s p : String.prefix p s = true -> Js.includes s p = true.
Proof. intros H. destruct s; cbn [Js.includes]; rewrite H; reflexivity. Qed.

End YouTubeIds.

Section YouTubePages.
Import Regex Types Types.Video VideoDetector.

Variable Number : string -> float.

Lemma extractYouTubeVideoId_first u m :
  exec false yt_watch u = Some m -> extractYouTubeVideoId u = m.
Proof using Type.
  intros H. unfold extractYouTubeVideoId. cbv zeta.
  fold yt_id. fold yt_watch. rewrite H. reflexivity.
Qed.

Lemma mentions_youtube pre key tail :
  In key yt_keys ->
  negb (Js.includes (pre ++ key ++ tail)%string "youtube.com")
  && negb (Js.includes (pre ++ key ++ tail)%string "youtu.be") = false.
Proof using Type.
  intros [<- | [<- | [<- | []]]].
  - rewrite (includes_append pre _ "youtube.com"); [reflexivity|].
    apply includes_prefix. reflexivity.
  - rewrite (includes_append pre _ "youtu.be"); [apply andb_false_r|].
    apply includes_prefix. reflexivity.
  - rewrite (includes_append pre _ "youtube.com"); [reflexivity|].
    apply includes_prefix. reflexivity.
Qed.

(** X18: on a page whose address reads, after a prefix without the
    letter [y], [youtube.com/watch?v=], [youtu.be/] or
    [youtube.com/embed/] followed by a non-empty id free of [&], [?],
    [#] and line feed, and then ends or continues with one of these four
    characters, [extractYouTubeVideoId] returns exactly that id, and
    [detectYouTube] reports a [youtube] candidate with that id, the page
    address and the thumbnail address built from the id. *)
Theorem X18_youtube_id (doc : Document) (pre key id rest : string) :
  location_href doc = (pre ++ key ++ id ++ rest)%string ->
  without "y" pre = true ->
  In key yt_keys ->
  id <> "" ->
  id_string id = true ->
  ends_id rest = true ->
  extractYouTubeVideoId (location_href doc) = Some id /\
  exists info,
    detectYouTube Number doc = Some info /\
    platform info = youtube /\
    videoId info = Some id /\
    url info = location_href doc /\
    thumbnailUrl info
    = Some ("https://img.youtube.com/vi/" ++ id ++ "/maxresdefault.jpg")%string.
Proof.
  intros Hhref Hpre Hkey Hne Hid Hrest.
  assert (Hextract : extractYouTubeVideoId (location_href doc) = Some id).
  { apply extractYouTubeVideoId_first. rewrite Hhref.
    rewrite (exec_yt_watch_skip _ _ Hpre).
    apply exec_here, yt_watch_here; assumption. }
  split; [exact Hextract|].
  unfold detectYouTube. rewrite Hextract.
  assert (Hm : negb (Js.includes (location_href doc) "youtube.com")
               && negb (Js.includes (location_href doc) "youtu.be") = false)
    by (rewrite Hhref; apply mentions_youtube, Hkey).
  rewrite Hm.
  assert (Ht : Js.truthy id = true) by (destruct id; [congruence | reflexivity]).
  rewrite Ht. cbn [negb]. eexists. split; [reflexivity|].
  cbn [platform videoId url thumbnailUrl]. repeat split.
Qed.

End YouTubePages.

Definition youtube_document : VideoDetector.Document :=
  {| VideoDetector.location_href := "https://www.youtube.com/watch?v=dQw4w9WgXcQ&t=42";
     VideoDetector.document_title := "Clip - YouTube";
     VideoDetector.querySelector_text := fun _ => None;
     VideoDetector.body := [] |}.

Lemma X18_youtube_id_witness :
  VideoDetector.extractYouTubeVideoId (VideoDetector.location_href youtube_document)
  = Some "dQw4w9WgXcQ" /\
  exists info,
    VideoDetector.detectYouTube (fun _ => 0%float) youtube_document = Some info /\
    Types.Video.platform info = Types.youtube /\
    Types.Video.videoId info = Some "dQw4w9WgXcQ" /\
    Types.Video.url info = VideoDetector.location_href youtube_document /\
    Types.Video.thumbnailUrl info
    = Some ("https://img.youtube.com/vi/" ++ "dQw4w9WgXcQ" ++ "/maxresdefault.jpg")%string.
Proof.
  apply (X18_youtube_id (fun _ => 0%float) youtube_document
           "https://www." "youtube.com/watch?v=" "dQw4w9WgXcQ" "&t=42");
    try reflexivity.
  - simpl. tauto.
  - discriminate.
Defined.

(* ===================================================================== *)
(** * The stream detector: letter case of the headers *)
(* ===================================================================== *)

Section HeaderCase.
Import Regex Types StreamDetector.

Lemma lower_char_idempotent c : Js.lower_char (Js.lower_char c) = Js.lower_char c.
Proof.
  assert (H : forallb (fun a => Ascii.eqb (Js.lower_char (Js.lower_char a))
                                  (Js.lower_char a)) all_ascii = true)
    by (vm_compute; reflexivity).
  rewrite forallb_forall in H. apply Ascii.eqb_eq, H, all_ascii_complete.
Qed.

Lemma toLowerCase_idempotent s : Js.toLowerCase (Js.toLowerCase s) = Js.toLowerCase s.
Proof.
  induction s as [|c s IH]; [reflexivity|].
  cbn [Js.toLowerCase]. rewrite lower_char_idempotent, IH. reflexivity.
Qed.

(** A header with its name in lower case and, for [content-type], its
    value in lower case too. *)
Definition lower_header (h : Header) : Header :=
  {| name := Js.toLowerCase (name h);
     value := if String.eqb (Js.toLowerCase (name h)) "content-type"
              then Js.toLowerCase <$> value h else value h |}.

Definition lower_headers (details : WebResponseDetails) : WebResponseDetails :=
  {| d_url := d_url details;
     d_tabId := d_tabId details;
     d_type := d_type details;
     d_statusCode := d_statusCode details;
     d_responseHeaders := List.map lower_header <$> d_responseHeaders details |}.

Lemma header_value_lower hs key :
  header_value (List.map lower_header <$> hs) key
  = if String.eqb key "content-type"
    then Js.toLowerCase <$> header_value hs key
    else header_value hs key.
Proof.
  destruct hs as [headers|]; [|destruct (String.eqb key "content-type"); reflexivity].
  simpl. induction headers as [|h headers IH].
  - simpl. destruct (String.eqb key "content-type"); reflexivity.
  - cbn [List.map List.find]. cbn [lower_header name value].
    rewrite toLowerCase_idempotent.
    destruct (String.eqb_spec (Js.toLowerCase (name h)) key) as [Heq|Hne];
      [|exact IH].
    unfold lower_header. cbn [value]. rewrite Heq. reflexivity.
Qed.

Lemma contentType_of_lower details :
  contentType_of (lower_headers details) = contentType_of details.
Proof.
  unfold contentType_of, lower_headers. cbn [d_responseHeaders].
  rewrite header_value_lower. cbn [String.eqb].
  replace (String.eqb "content-type" "content-type") with true by reflexivity.
  destruct (header_value _ _) as [v|]; [|reflexivity].
  simpl. rewrite toLowerCase_idempotent. reflexivity.
Qed.

Lemma size_of_lower details : size_of (lower_headers details) = size_of details.
Proof.
  unfold size_of, lower_headers. cbn [d_responseHeaders].
  rewrite header_value_lower.
  replace (String.eqb "content-length" "content-type") with false by reflexivity.
  reflexivity.
Qed.

(** X19: header names are compared, and the content type is read, without
    regard to letter case: a response and the same response with its
    header names and its [content-type] value in lower case are handled
    alike, down to the record stored. *)
Theorem X19_header_case_is_ignored (st : Detector) (details : WebResponseDetails)
    (now : Z) :
  stream_of (lower_headers details) now = stream_of details now /\
  handleResponse st (lower_headers details) now = handleResponse st details now.
Proof.
  assert (Hstream : stream_of (lower_headers details) now = stream_of details now).
  { unfold stream_of. rewrite contentType_of_lower, size_of_lower. reflexivity. }
  split; [exact Hstream|].
  unfold handleResponse. rewrite Hstream, contentType_of_lower, size_of_lower.
  reflexivity.
Qed.

End HeaderCase.

(* ===================================================================== *)
(** * The DOM scan: one video with a nested source *)
(* ===================================================================== *)

Section ResolvedAddresses.
Import Regex Types Types.Video VideoDetector.

Lemma toLowerCase_append (s t : string) :
  Js.toLowerCase (s ++ t) = (Js.toLowerCase s ++ Js.toLowerCase t)%string.
Proof.
  induction s as [|c s IH]; [reflexivity|].
  rewrite append_cons. cbn [Js.toLowerCase]. rewrite IH. reflexivity.
Qed.

(** A keyword that does not occur in [t] and cannot begin in front of [t]
    and end inside it occurs in [s ++ t] exactly when it occurs in [s]. *)
Lemma includes_append_tail (s t kw : string) :
  Js.includes t kw = false ->
  (forall x, String.prefix kw (x ++ t) = String.prefix kw x) ->
  Js.includes (s ++ t) kw = Js.includes s kw.
Proof.
  intros Htail Hprefix. induction s as [|c s IH].
  - rewrite append_empty, Htail. cbn [Js.includes].
    rewrite <- (Hprefix ""%string), append_empty.
    destruct t; cbn [Js.includes] in Htail.
    + symmetry. exact Htail.
    + apply orb_false_iff in Htail as [Htail _]. symmetry. exact Htail.
  - rewrite append_cons. cbn [Js.includes]. rewrite IH.
    rewrite <- append_cons, Hprefix. reflexivity.
Qed.

Ltac prefix_by_cases x :=
  destruct x as [|? [|? [|? [|? [|? x]]]]];
  rewrite ?append_cons, ?append_empty, ?prefix_cons, ?prefix_empty_l;
  repeat match goal with
         | |- context [Ascii.eqb ?c ?d] =>
             is_var c; destruct (Ascii.eqb c d)
         end;
  reflexivity.

(** The address that the file name [a.mp4] resolves to is typed [mp4]
    unless the address it is resolved against names a manifest. *)
Lemma resolved_mp4 base :
  mentions base ".m3u8" = false -> mentions base ".mpd" = false ->
  detectStreamTypeFromUrl (base ++ "a.mp4") = mp4.
Proof.
  intros Hhls Hdash. rewrite detectStreamTypeFromUrl_lower. unfold mentions in *.
  rewrite toLowerCase_append.
  change (Js.toLowerCase "a.mp4") with "a.mp4".
  rewrite (includes_append_tail _ "a.mp4" ".m3u8"), Hhls;
    [|reflexivity|intros x; prefix_by_cases x].
  rewrite (includes_append_tail _ "a.mp4" ".mpd"), Hdash;
    [|reflexivity|intros x; prefix_by_cases x].
  rewrite (includes_append _ "a.mp4" ".mp4") by reflexivity. reflexivity.
Qed.

(** Likewise [b.webm], unless the address it is resolved against names a
    manifest or an [.mp4]. *)
Lemma resolved_webm base :
  mentions base ".m3u8" = false -> mentions base ".mpd" = false ->
  mentions base ".mp4" = false ->
  detectStreamTypeFromUrl (base ++ "b.webm") = webm.
Proof.
  intros Hhls Hdash Hmp4. rewrite detectStreamTypeFromUrl_lower. unfold mentions in *.
  rewrite toLowerCase_append.
  change (Js.toLowerCase "b.webm") with "b.webm".
  rewrite (includes_append_tail _ "b.webm" ".m3u8"), Hhls;
    [|reflexivity|intros x; prefix_by_cases x].
  rewrite (includes_append_tail _ "b.webm" ".mpd"), Hdash;
    [|reflexivity|intros x; prefix_by_cases x].
  rewrite (includes_append_tail _ "b.webm" ".mp4"), Hmp4;
    [|reflexivity|intros x; prefix_by_cases x].
  rewrite (includes_append _ "b.webm" ".webm") by reflexivity. reflexivity.
Qed.

(** The [<video src=a.mp4>] of 640 by 360 whose [src] the browser has
    resolved to [a]. *)
Definition markup_video (a : string) : VideoElement :=
  {| video_src := a; video_currentSrc := a; rect_width := 640; rect_height := 360;
     video_title := ""; video_aria_label := None; video_heading := None;
     video_duration := 12 |}.

(** The [<source src=b.webm>] whose [src] the browser has resolved to [b]. *)
Definition markup_source (b : string) : SourceElement :=
  {| source_getAttribute_src := Some "b.webm"; source_src := b; source_type := "" |}.

(** The page at [href] that holds this video with this source nested in
    it, and the nodes [more] next to the video. *)
Definition video_page (href a b : string) (more : list Node) : Document :=
  {| location_href := href;
     document_title := "Sample";
     querySelector_text := fun _ => None;
     body := [OtherNode (VideoNode (markup_video a) [SourceNode (markup_source b)]
                         :: more)] |}.

Definition embed_iframe : IframeElement :=
  {| iframe_src := "https://ads.example.net/embed/1"; iframe_data_src := None;
     iframe_title := "" |}.

Definition orphan_source : SourceElement :=
  {| source_getAttribute_src := Some "c.mp4";
     source_src := "https://example.com/c.mp4"; source_type := "" |}.

Variable clock : nat -> Z.
Variable Number : string -> float.

(** C9, amended.  Take a page whose address yields no YouTube or Vimeo
    candidate, whose iframes yield no candidate and that has no selected
    [<source>] outside a video, with exactly one [<video>], of at least
    the minimum area, and one [<source>] nested in it, the [src] of both
    resolved to non-empty addresses that are not blob addresses.  The
    scan returns exactly one candidate; its streams are the two resolved
    addresses in markup order, each typed by the first of [.m3u8], [.mpd],
    [.mp4], [.webm], [.flv] that the resolved address contains.  So the
    first is typed [mp4] exactly when its address contains [.mp4] and
    neither [.m3u8] nor [.mpd], the second [webm] exactly when its address
    contains [.webm] and none of [.m3u8], [.mpd], [.mp4]; this is the case
    when [a.mp4] and [b.webm] have been resolved against an address that
    contains none of these. *)
Theorem C9_video_with_nested_source doc video children source :
  flat_map videos_of (body doc) = [(video, children)] ->
  flat_map (sources_of true) children = [(source, true)] ->
  PrimFloat.ltb (rect_width video * rect_height video) 10000 = false ->
  detectYouTube Number doc = None ->
  detectVimeo doc = None ->
  detectIframeVideos doc = [] ->
  (forall x, x ∈ flat_map (sources_of false) (body doc) ->
             source_selected x.1 = true -> x.2 = true) ->
  Js.truthy (video_src video) = true -> is_blob (video_src video) = false ->
  Js.truthy (source_src source) = true -> is_blob (source_src source) = false ->
  exists info,
    detectAll clock Number doc = [info] /\
    (fun s => (Types.url s, type s)) <$> default [] (streams info)
    = [(video_src video, detectStreamTypeFromUrl (video_src video));
       (source_src source, detectStreamTypeFromUrl (source_src source))] /\
    (detectStreamTypeFromUrl (video_src video) = mp4 <->
       mentions (video_src video) ".m3u8" = false /\
       mentions (video_src video) ".mpd" = false /\
       mentions (video_src video) ".mp4" = true) /\
    (detectStreamTypeFromUrl (source_src source) = webm <->
       mentions (source_src source) ".m3u8" = false /\
       mentions (source_src source) ".mpd" = false /\
       mentions (source_src source) ".mp4" = false /\
       mentions (source_src source) ".webm" = true) /\
    (forall base,
       video_src video = (base ++ "a.mp4")%string ->
       mentions base ".m3u8" = false -> mentions base ".mpd" = false ->
       detectStreamTypeFromUrl (video_src video) = mp4) /\
    (forall base,
       source_src source = (base ++ "b.webm")%string ->
       mentions base ".m3u8" = false -> mentions base ".mpd" = false ->
       mentions base ".mp4" = false ->
       detectStreamTypeFromUrl (source_src source) = webm).
Proof.
  intros Hvideos Hsources Harea Hyt Hvimeo Hiframes Hnested Hsrc Hblob Hsrc' Hblob'.
  destruct (scan_single_video clock Number doc video children source)
    as (info & Hall & _ & _ & Hstreams); try assumption.
  exists info. split; [exact Hall|]. split; [rewrite Hstreams; reflexivity|].
  split; [|split; [|split]].
  - rewrite detectStreamTypeFromUrl_lower.
    destruct (mentions (video_src video) ".m3u8"),
      (mentions (video_src video) ".mpd"), (mentions (video_src video) ".mp4"),
      (mentions (video_src video) ".webm"), (mentions (video_src video) ".flv");
      split; intros H; try discriminate H; try tauto;
      destruct H as (? & ? & ?); discriminate.
  - rewrite detectStreamTypeFromUrl_lower.
    destruct (mentions (source_src source) ".m3u8"),
      (mentions (source_src source) ".mpd"), (mentions (source_src source) ".mp4"),
      (mentions (source_src source) ".webm"), (mentions (source_src source) ".flv");
      split; intros H; try discriminate H; try tauto;
      destruct H as (? & ? & ? & ?); discriminate.
  - intros base -> Hhls Hdash. apply resolved_mp4; assumption.
  - intros base -> Hhls Hdash Hmp4. apply resolved_webm; assumption.
Qed.

End ResolvedAddresses.

(** C9, as stated, fails.  The markup of the claim gives two candidates on
    a Vimeo or YouTube video page, next to an iframe whose address
    contains [embed] and next to a [<source>] outside the video; and on a
    host whose name contains [.mpd] both resolved addresses are typed
    [dash]. *)
Lemma C9_second_candidate_or_other_kind :
  length (VideoDetector.detectAll Z.of_nat (fun _ => 0%float)
            (video_page "https://vimeo.com/12345"
               "https://vimeo.com/a.mp4" "https://vimeo.com/b.webm" [])) = 2%nat /\
  length (VideoDetector.detectAll Z.of_nat (fun _ => 0%float)
            (video_page "https://www.youtube.com/watch?v=dQw4w9WgXcQ"
               "https://www.youtube.com/a.mp4" "https://www.youtube.com/b.webm" []))
  = 2%nat /\
  length (VideoDetector.detectAll Z.of_nat (fun _ => 0%float)
            (video_page "https://example.com/watch"
               "https://example.com/a.mp4" "https://example.com/b.webm"
               [VideoDetector.IframeNode embed_iframe])) = 2%nat /\
  length (VideoDetector.detectAll Z.of_nat (fun _ => 0%float)
            (video_page "https://example.com/watch"
               "https://example.com/a.mp4" "https://example.com/b.webm"
               [VideoDetector.SourceNode orphan_source])) = 2%nat /\
  (fun info => Types.type <$> default [] (Types.Video.streams info))
  <$> VideoDetector.detectAll Z.of_nat (fun _ => 0%float)
        (video_page "https://www.mpdc.dc.gov/watch"
           "https://www.mpdc.dc.gov/a.mp4" "https://www.mpdc.dc.gov/b.webm" [])
  = [[Types.dash; Types.dash]].
Proof. vm_compute. repeat split. Qed.

Lemma C9_video_with_nested_source_witness :
  exists info,
    VideoDetector.detectAll Z.of_nat (fun _ => 0%float)
      (video_page "https://example.com/watch"
         "https://example.com/a.mp4" "https://example.com/b.webm" []) = [info] /\
    (fun s => (Types.url s, Types.type s)) <$> default [] (Types.Video.streams info)
    = [("https://example.com/a.mp4", Types.mp4);
       ("https://example.com/b.webm", Types.webm)].
Proof.
  destruct (C9_video_with_nested_source Z.of_nat (fun _ => 0%float)
              (video_page "https://example.com/watch"
                 "https://example.com/a.mp4" "https://example.com/b.webm" [])
              (markup_video "https://example.com/a.mp4")
              [VideoDetector.SourceNode (markup_source "https://example.com/b.webm")]
              (markup_source "https://example.com/b.webm"))
    as (info & Hall & Hstreams & _ & _ & Hmp4 & Hwebm); try reflexivity.
  - intros x Hx _. apply list_elem_of_In in Hx. simpl in Hx.
    destruct Hx as [<- | []]. reflexivity.
  - exists info. split; [exact Hall|].
    rewrite Hstreams.
    rewrite (Hmp4 "https://example.com/") by reflexivity.
    rewrite (Hwebm "https://example.com/") by reflexivity.
    reflexivity.
Defined.
